(** * Update Scanner: the Page record and the sequential scan pipeline

    A shallow embedding of [src/lib/page/page.js] (class [Page]) and of the
    scan module (class [Scan]: [scan], [_scanPage], [_processHtml],
    [_updatePageState], [_getChangeType]), with the collaborators the scan
    module imports but that are not part of the sources at hand ([Fuzzy],
    [PageStore], [Storage]) modelled from the specification. *)

From Stdlib Require Import ZArith Lia Ascii.
From stdpp Require Import base decidable countable strings pretty list gmap fin_maps.

Local Open Scope string_scope.
Local Open Scope Z_scope.

(** ** JavaScript values

    The primitive values a Page field can hold.  Numbers are the integers
    the JSDoc of [Page] promises (minutes, character counts, epoch
    milliseconds). *)
Module Js.

Inductive JsValue : Type :=
| JsUndefined
| JsNull
| JsBool (b : bool)
| JsNumber (n : Z)
| JsString (s : string).

#[global] Instance JsValue_eq_dec : EqDecision JsValue.
Proof. solve_decision. Defined.

Definition JsValue_to_sum (v : JsValue) : unit + (unit + (bool + (Z + string))) :=
  match v with
  | JsUndefined => inl tt
  | JsNull => inr (inl tt)
  | JsBool b => inr (inr (inl b))
  | JsNumber n => inr (inr (inr (inl n)))
  | JsString s => inr (inr (inr (inr s)))
  end.

Definition JsValue_of_sum (x : unit + (unit + (bool + (Z + string)))) : JsValue :=
  match x with
  | inl _ => JsUndefined
  | inr (inl _) => JsNull
  | inr (inr (inl b)) => JsBool b
  | inr (inr (inr (inl n))) => JsNumber n
  | inr (inr (inr (inr s))) => JsString s
  end.

#[global] Instance JsValue_countable : Countable JsValue :=
  inj_countable' JsValue_to_sum JsValue_of_sum
    (λ v, match v with
          | JsUndefined => eq_refl
          | JsNull => eq_refl
          | JsBool _ => eq_refl
          | JsNumber _ => eq_refl
          | JsString _ => eq_refl
          end).

(** A plain object: a finite map from property names to values. *)
Abbreviation Obj := (gmap string JsValue).

(** Property read [o.k]: a missing property reads as [undefined]. *)
Definition getProp (o : Obj) (k : string) : JsValue :=
  default JsUndefined (o !! k).

(** The double quote character, as a string. *)
Definition dquote : string := String (ascii_of_nat 34) EmptyString.

(** String conversion, as performed by [+] with a string operand. *)
Definition toStr (v : JsValue) : string :=
  match v with
  | JsUndefined => "undefined"
  | JsNull => "null"
  | JsBool true => "true"
  | JsBool false => "false"
  | JsNumber n => pretty n
  | JsString s => s
  end.

(** [v == s] for a string [s] that is not a numeric literal: the abstract
    equality algorithm converts [s] to NaN against a number or a boolean and
    answers false against [null] and [undefined], so only the same string is
    equal. *)
Definition looseEqWord (v : JsValue) (s : string) : bool :=
  match v with
  | JsString x => String.eqb x s
  | _ => false
  end.

End Js.
Import Js.

(** ** [src/lib/page/page.js] *)
Module Page.

(** [Page.stateEnum] *)
Module stateEnum.
Definition NO_CHANGE : string := "no_change".
Definition CHANGED : string := "changed".
Definition ERROR : string := "error".
End stateEnum.

(** [Page.DEFAULTS] *)
Definition DEFAULTS : Obj :=
  list_to_map
    [ ("title", JsString "New Page");
      ("url", JsNull);
      ("scanRateMinutes", JsNumber (24 * 60));
      ("changeThreshold", JsNumber 100);
      ("ignoreNumbers", JsBool false);
      ("encoding", JsNull);
      ("highlightChanges", JsBool true);
      ("highlightColour", JsString "#ffff66");
      ("markChanges", JsBool false);
      ("doPost", JsBool false);
      ("postParams", JsNull);
      ("state", JsString stateEnum.NO_CHANGE);
      ("error", JsNull);
      ("errorMessage", JsNull);
      ("lastAutoscanTime", JsNull);
      ("oldScanTime", JsNull);
      ("newScanTime", JsNull) ].


(** [Page._KEY(id)] *)
Definition _KEY (id : JsValue) : string := "page:" ++ toStr id.

(** An instance of the class. *)
Record t : Type := mk {
  id : JsValue;
  title : JsValue;
  url : JsValue;
  scanRateMinutes : JsValue;
  changeThreshold : JsValue;
  ignoreNumbers : JsValue;
  encoding : JsValue;
  highlightChanges : JsValue;
  highlightColour : JsValue;
  markChanges : JsValue;
  doPost : JsValue;
  postParams : JsValue;
  state : JsValue;
  error : JsValue;
  errorMessage : JsValue;
  lastAutoscanTime : JsValue;
  oldScanTime : JsValue;
  newScanTime : JsValue
}.

(** A destructured parameter [{k = Page.DEFAULTS.k}]: the default is taken
    exactly when [data.k] is [undefined] (missing or set to [undefined]). *)
Definition param (data : Obj) (k : string) : JsValue :=
  match getProp data k with
  | JsUndefined => getProp DEFAULTS k
  | v => v
  end.

(** [new Page(id, data)] *)
Definition new (id : JsValue) (data : Obj) : t :=
  {| id := id;
     title := param data "title";
     url := param data "url";
     scanRateMinutes := param data "scanRateMinutes";
     changeThreshold := param data "changeThreshold";
     ignoreNumbers := param data "ignoreNumbers";
     encoding := param data "encoding";
     highlightChanges := param data "highlightChanges";
     highlightColour := param data "highlightColour";
     markChanges := param data "markChanges";
     doPost := param data "doPost";
     postParams := param data "postParams";
     state := param data "state";
     error := param data "error";
     errorMessage := param data "errorMessage";
     lastAutoscanTime := param data "lastAutoscanTime";
     oldScanTime := param data "oldScanTime";
     newScanTime := param data "newScanTime" |}.

(** [page._toObject()] *)
Definition _toObject (p : t) : Obj :=
  list_to_map
    [ ("title", title p);
      ("url", url p);
      ("scanRateMinutes", scanRateMinutes p);
      ("changeThreshold", changeThreshold p);
      ("ignoreNumbers", ignoreNumbers p);
      ("encoding", encoding p);
      ("highlightChanges", highlightChanges p);
      ("highlightColour", highlightColour p);
      ("markChanges", markChanges p);
      ("doPost", doPost p);
      ("postParams", postParams p);
      ("state", state p);
      ("error", error p);
      ("errorMessage", errorMessage p);
      ("lastAutoscanTime", lastAutoscanTime p);
      ("oldScanTime", oldScanTime p);
      ("newScanTime", newScanTime p) ].

(** Field assignments [page.state = v], [page.error = v] and
    [page.errorMessage = v]. *)
Definition set_state (v : JsValue) (p : t) : t :=
  mk (id p) (title p) (url p) (scanRateMinutes p) (changeThreshold p)
     (ignoreNumbers p) (encoding p) (highlightChanges p) (highlightColour p)
     (markChanges p) (doPost p) (postParams p) v (error p) (errorMessage p)
     (lastAutoscanTime p) (oldScanTime p) (newScanTime p).

Definition set_error (v : JsValue) (p : t) : t :=
  mk (id p) (title p) (url p) (scanRateMinutes p) (changeThreshold p)
     (ignoreNumbers p) (encoding p) (highlightChanges p) (highlightColour p)
     (markChanges p) (doPost p) (postParams p) (state p) v (errorMessage p)
     (lastAutoscanTime p) (oldScanTime p) (newScanTime p).

Definition set_errorMessage (v : JsValue) (p : t) : t :=
  mk (id p) (title p) (url p) (scanRateMinutes p) (changeThreshold p)
     (ignoreNumbers p) (encoding p) (highlightChanges p) (highlightColour p)
     (markChanges p) (doPost p) (postParams p) (state p) (error p) v
     (lastAutoscanTime p) (oldScanTime p) (newScanTime p).

Definition set_ignoreNumbers (v : JsValue) (p : t) : t :=
  mk (id p) (title p) (url p) (scanRateMinutes p) (changeThreshold p)
     v (encoding p) (highlightChanges p) (highlightColour p)
     (markChanges p) (doPost p) (postParams p) (state p) (error p)
     (errorMessage p) (lastAutoscanTime p) (oldScanTime p) (newScanTime p).

(** Every serialised field holds a value other than [undefined]. *)
Definition allDefined (p : t) : Prop :=
  Forall (λ v, v ≠ JsUndefined)
    [ title p; url p; scanRateMinutes p; changeThreshold p; ignoreNumbers p;
      encoding p; highlightChanges p; highlightColour p; markChanges p;
      doPost p; postParams p; state p; error p; errorMessage p;
      lastAutoscanTime p; oldScanTime p; newScanTime p ].

End Page.

#[global] Arguments Page.DEFAULTS : simpl never.
#[global] Arguments Page._toObject : simpl never.
#[global] Arguments Page._KEY : simpl never.

(** ** The Text Comparator *)
Module Fuzzy.

(** Modelled from the spec: part of the measure of the missing module
    [./fuzzy] (section 4.1).  The length of a longest common subsequence of
    two character lists: the characters a character-level diff keeps. *)
Fixpoint lcs (a b : list ascii) : nat :=
  match a with
  | [] => 0%nat
  | x :: a' =>
      (fix inner (b : list ascii) : nat :=
         match b with
         | [] => 0%nat
         | y :: b' =>
             if Ascii.eqb x y then S (lcs a' b')
             else Nat.max (lcs a' b) (inner b')
         end) b
  end.

(** Modelled from the spec: the module [./fuzzy] that the scan module
    imports is not among the sources.  Section 4.1 measures a difference as
    the summed length of the inserted and the deleted spans of a diff of the
    two texts, common spans not counting; the diff taken here is the
    character-level one. *)
Definition magnitude (old new : string) : Z :=
  let a := String.list_ascii_of_string old in
  let b := String.list_ascii_of_string new in
  Z.of_nat (length a - lcs a b) + Z.of_nat (length b - lcs a b).

Section Measured.
Variable measure : string → string → Z.

(** Modelled from the spec: [Fuzzy.isMajorChange(oldText, newText,
    threshold)] of the missing module [./fuzzy].  Section 4.1: true iff
    the measured magnitude meets or exceeds the integer threshold, the
    comparison being [>=].  The spec gives no meaning to a threshold that
    is not a number; such a threshold is answered false here. *)
Definition isMajorChangeBy (old new : string) (threshold : JsValue) : bool :=
  match threshold with
  | JsNumber t => (t <=? measure old new)%Z
  | _ => false
  end.
End Measured.

(** Modelled from the spec: [Fuzzy.isMajorChange] of the missing module
    [./fuzzy], on the character-level measure. *)
Definition isMajorChange : string → string → JsValue → bool :=
  isMajorChangeBy magnitude.

End Fuzzy.

(** ** The snapshot store *)
Module PageStore.

(** Modelled from the spec: [PageStore.htmlTypes] of the missing module
    [page/page_store]; section 3 names the two slots of a page, OLD and
    NEW. *)
Inductive htmlTypes : Type := OLD | NEW.

#[global] Instance htmlTypes_eq_dec : EqDecision htmlTypes.
Proof. solve_decision. Defined.

#[global] Instance htmlTypes_countable : Countable htmlTypes :=
  inj_countable' (λ ty, match ty with OLD => false | NEW => true end)
                 (λ b : bool, if b then NEW else OLD)
                 (λ ty, match ty with OLD => eq_refl | NEW => eq_refl end).

Abbreviation HtmlStore := (gmap (JsValue * htmlTypes) string).

(** Modelled from the spec: [PageStore.loadHtml(id, htmlType)] of the
    missing module [page/page_store].  Section 6: the snapshot store is keyed
    by the page id and the slot and holds a text blob; section 4.2 reads an
    absent snapshot as the empty text of a first scan. *)
Definition loadHtml (st : HtmlStore) (id : JsValue) (ty : htmlTypes) : string :=
  default "" (st !! (id, ty)).

(** Modelled from the spec: [PageStore.saveHtml(id, htmlType, html)] of the
    missing module [page/page_store]: the slot of that page now holds the
    text, every other slot is as before. *)
Definition saveHtml (st : HtmlStore) (id : JsValue) (ty : htmlTypes)
    (html : string) : HtmlStore :=
  <[(id, ty) := html]> st.

End PageStore.
Import PageStore.

(** ** The scan module *)
Module Scan.

(** [Scan.changeEnum] *)
Inductive changeEnum : Type :=
| NEW_CONTENT
| NO_CHANGE
| MAJOR_CHANGE
| MINOR_CHANGE.

#[global] Instance changeEnum_eq_dec : EqDecision changeEnum.
Proof. solve_decision. Defined.

(** A computation that may consult the comparator: either it has its result,
    or it calls [Fuzzy.isMajorChange] on three arguments and goes on with the
    answer. *)
Inductive Comparing (A : Type) : Type :=
| Answer (a : A)
| CallFuzzy (html1 html2 : string) (changeThreshold : JsValue)
            (k : bool → Comparing A).
Arguments Answer {A} a.
Arguments CallFuzzy {A} html1 html2 changeThreshold k.

(** The result with a given comparator. *)
Fixpoint answer {A} (isMajorChange : string → string → JsValue → bool)
    (c : Comparing A) : A :=
  match c with
  | Answer a => a
  | CallFuzzy h1 h2 t k => answer isMajorChange (k (isMajorChange h1 h2 t))
  end.

(** The comparator calls made, in order. *)
Fixpoint calls {A} (isMajorChange : string → string → JsValue → bool)
    (c : Comparing A) : list (string * string * JsValue) :=
  match c with
  | Answer _ => []
  | CallFuzzy h1 h2 t k =>
      (h1, h2, t) :: calls isMajorChange (k (isMajorChange h1 h2 t))
  end.

(** [Scan._getChangeType(html1, html2, changeThreshold)] *)
Definition _getChangeType (html1 html2 : string) (changeThreshold : JsValue)
    : Comparing changeEnum :=
  if String.eqb html1 "" then
    Answer NEW_CONTENT
  else if String.eqb html1 html2 then
    Answer NO_CHANGE
  else
    CallFuzzy html1 html2 changeThreshold
      (λ major, if major then Answer MAJOR_CHANGE else Answer MINOR_CHANGE).

(** What a [fetch] settles with: a rejection (transport error) or a
    response with its [ok] flag, status line and body text. *)
Inductive FetchResult : Type :=
| NetworkError (error : JsValue)
| Response (ok : bool) (status : Z) (statusText : string) (text : string).

(** A reference to a Page object: its index in the heap of the run. *)
Abbreviation ref := nat.

(** Operations in flight, each with the reaction the source chained on it:
    [fetch(page.url)], [response.text()] and [PageStore.loadHtml(...)].
    Each completes in a later turn of the event loop (section 5: the flow
    suspends at network and storage boundaries); the reactions of a promise
    that is already settled run within the turn.  [rest] is the tail of
    [promiseChain] built by [scan]: the pages whose [then] callback waits
    for the promise of [_scanPage page]. *)
Inductive Pending : Type :=
| PFetch (page : ref) (url : JsValue) (rest : list ref)
| PText (page : ref) (text : string) (rest : list ref)
| PLoadHtml (page : ref) (prevHtml scannedHtml : string).

(** What a run does, in the order it does it.  [EChangeType] marks the
    return of [_getChangeType] inside [_updatePageState]; [EFulfilled] the
    fulfilment of the promise [scan] returned. *)
Inductive Event : Type :=
| EFetch (page : ref) (url : JsValue)
| EConsoleLog (msg : string)
| ELoadHtml (id : JsValue) (ty : htmlTypes)
| EChangeType (page : ref) (change : changeEnum)
| ESaveHtml (id : JsValue) (ty : htmlTypes) (html : string)
| EStorageSave (key : string) (data : Obj)
| EFulfilled.

#[global] Instance Event_eq_dec : EqDecision Event.
Proof. solve_decision. Defined.

(** The state a run threads: the Page objects, the snapshot store, the
    persisted object store, the operations in flight and the events so far. *)
Record World : Type := mkWorld {
  heap : list Page.t;
  html : HtmlStore;
  storage : gmap string Obj;
  pending : list Pending;
  log : list Event
}.

#[global] Instance Page_inhabited : Inhabited Page.t :=
  populate (Page.new JsUndefined ∅).

Definition M (A : Type) : Type := World → A * World.

#[global] Instance M_ret : MRet M := λ A a w, (a, w).
#[global] Instance M_bind : MBind M :=
  λ A B f m w, let '(a, w') := m w in f a w'.

Definition exec {A} (m : M A) (w : World) : World := (m w).2.

(** Primitive effects. *)
Definition reads {A} (f : World → A) : M A := λ w, (f w, w).
Definition modify (f : World → World) : M unit := λ w, (tt, f w).

Definition emit (e : Event) : M unit :=
  modify (λ w, mkWorld (heap w) (html w) (storage w) (pending w) (log w ++ [e])).

Definition suspend (op : Pending) : M unit :=
  modify (λ w, mkWorld (heap w) (html w) (storage w) (pending w ++ [op]) (log w)).

(** Field read [page.f] and field write through a setter. *)
Definition get (f : Page.t → JsValue) (page : ref) : M JsValue :=
  reads (λ w, f (heap w !!! page)).

Definition assign (set : JsValue → Page.t → Page.t) (page : ref) (v : JsValue)
    : M unit :=
  modify (λ w, mkWorld (alter (set v) page (heap w)) (html w) (storage w)
                       (pending w) (log w)).

(** Modelled from the spec: the call [PageStore.loadHtml(id, htmlType)] as
    an effect; the module [page/page_store] is missing.  The store serves
    its requests in the order they are made, so the text a load will deliver
    is the slot as it is when the load is requested. *)
Definition loadHtml (id : JsValue) (ty : htmlTypes) : M string :=
  emit (ELoadHtml id ty);;
  reads (λ w, PageStore.loadHtml (html w) id ty).

(** Modelled from the spec: the call [PageStore.saveHtml(id, htmlType,
    html)] as an effect; the module [page/page_store] is missing.  The
    source does not await it. *)
Definition saveHtml (id : JsValue) (ty : htmlTypes) (text : string) : M unit :=
  emit (ESaveHtml id ty text);;
  modify (λ w, mkWorld (heap w) (PageStore.saveHtml (html w) id ty text)
                       (storage w) (pending w) (log w)).

(** Modelled from the spec: [Storage.save(key, data)] of the missing module
    [util/storage]; section 6: the object store keeps the value under the
    string key. *)
Definition storageSave (key : string) (data : Obj) : M unit :=
  emit (EStorageSave key data);;
  modify (λ w, mkWorld (heap w) (html w) (<[key := data]> (storage w))
                       (pending w) (log w)).

(** [page.save()], not awaited: the key and [this._toObject()] are evaluated
    at the call. *)
Definition save (page : ref) : M unit :=
  p ← reads (λ w, heap w !!! page);
  storageSave (Page._KEY (Page.id p)) (Page._toObject p).

Definition consoleLog (msg : string) : M unit := emit (EConsoleLog msg).

Section WithCollaborators.
(** [Fuzzy.isMajorChange] and the network behind [fetch]. *)
Variable isMajorChange : string → string → JsValue → bool.
Variable net : JsValue → FetchResult.

(** The body of [_updatePageState] from its [switch] on, for a change
    type already computed. *)
Definition applyChange (change : changeEnum) (page : ref)
    (prevHtml scannedHtml : string) : M unit :=
  match change with
  | NEW_CONTENT | MINOR_CHANGE =>
      id ← get Page.id page;
      saveHtml id NEW scannedHtml;;
      state ← get Page.state page;
      if negb (looseEqWord state Page.stateEnum.CHANGED) then
        assign Page.set_state page (JsString Page.stateEnum.NO_CHANGE)
      else mret tt
  | MAJOR_CHANGE =>
      state ← get Page.state page;
      (if negb (looseEqWord state Page.stateEnum.CHANGED) then
         id ← get Page.id page;
         saveHtml id OLD prevHtml
       else mret tt);;
      id ← get Page.id page;
      saveHtml id NEW scannedHtml;;
      assign Page.set_state page (JsString Page.stateEnum.CHANGED)
  | NO_CHANGE =>
      state ← get Page.state page;
      if negb (looseEqWord state Page.stateEnum.CHANGED) then
        assign Page.set_state page (JsString Page.stateEnum.NO_CHANGE)
      else mret tt
  end;;
  assign Page.set_error page (JsBool false);;
  assign Page.set_errorMessage page (JsString "");;
  save page.

(** The value [applyChange] leaves in [page.state], from the value it
    finds there. *)
Definition stateAfter (change : changeEnum) (state : JsValue) : JsValue :=
  match change with
  | MAJOR_CHANGE => JsString Page.stateEnum.CHANGED
  | NEW_CONTENT | MINOR_CHANGE | NO_CHANGE =>
      if looseEqWord state Page.stateEnum.CHANGED then state
      else JsString Page.stateEnum.NO_CHANGE
  end.

(** The change type [_updatePageState] switches on. *)
Definition changeType (page : ref) (prevHtml scannedHtml : string)
    : M changeEnum :=
  threshold ← get Page.changeThreshold page;
  let change :=
    answer isMajorChange (_getChangeType prevHtml scannedHtml threshold) in
  emit (EChangeType page change);;
  mret change.

(** [Scan._updatePageState(page, prevHtml, scannedHtml)] *)
Definition _updatePageState (page : ref) (prevHtml scannedHtml : string)
    : M unit :=
  change ← changeType page prevHtml scannedHtml;
  applyChange change page prevHtml scannedHtml.

(** [Scan._processHtml(page, scannedHtml)]: the load is started and the
    function returns; nothing is returned to the caller, so the reaction
    [_updatePageState] stays with the load alone. *)
Definition _processHtml (page : ref) (scannedHtml : string) : M unit :=
  id ← get Page.id page;
  prevHtml ← loadHtml id NEW;
  suspend (PLoadHtml page prevHtml scannedHtml).

(** [Scan._scanPage(page)] up to the call of [fetch]: the request leaves
    and the reactions wait.  [rest] is not a parameter of the source
    function: it is the part of [promiseChain] that waits on the promise
    the function returns. *)
Definition _scanPage (page : ref) (rest : list ref) : M unit :=
  url ← get Page.url page;
  emit (EFetch page url);;
  suspend (PFetch page url rest).

(** The [catch] reaction of [_scanPage]. *)
Definition _scanPage_catch (page : ref) (error : JsValue) : M unit :=
  title ← get Page.title page;
  consoleLog ("Could not scan " ++ dquote ++ toStr title ++ dquote ++ ": "
            ++ toStr error);;
  assign Page.set_error page (JsBool true);;
  assign Page.set_errorMessage page error.

(** The links of [promiseChain]: when the promise before fulfils, the next
    [then] callback calls [_scanPage]; after the last one the promise
    [scan] returned fulfils. *)
Definition chain (rest : list ref) : M unit :=
  match rest with
  | [] => emit EFulfilled
  | page :: rest' => _scanPage page rest'
  end.

(** [Scan.scan(pageList)]: the chain is built at once and its first link
    runs as soon as the caller yields. *)
Definition scan (pageList : list ref) : M unit := chain pageList.

(** [checkStatus] inside [_scanPage]: the rejection reason of a response
    that is not ok. *)
Definition checkStatus_reason (status : Z) (statusText : string) : JsValue :=
  JsString ("[" ++ pretty status ++ "] " ++ statusText).

(** The reactions of [_scanPage] and [_processHtml] to an operation that
    completes, run to the point where every flow waits again. *)
Definition resume (op : Pending) : M unit :=
  match op with
  | PFetch page url rest =>
      match net url with
      | NetworkError error =>
          _scanPage_catch page error;; chain rest
      | Response ok status statusText text =>
          if ok then suspend (PText page text rest)
          else _scanPage_catch page (checkStatus_reason status statusText);;
               chain rest
      end
  | PText page text rest =>
      _processHtml page text;; chain rest
  | PLoadHtml page prevHtml scannedHtml =>
      _updatePageState page prevHtml scannedHtml
  end.

(** One turn of the event loop: the [k]-th operation in flight completes. *)
Definition deliver (k : nat) (w : World) : option World :=
  match pending w !! k with
  | Some op =>
      Some (exec (resume op)
              (mkWorld (heap w) (html w) (storage w)
                       (delete k (pending w)) (log w)))
  | None => None
  end.

(** A run under a schedule: which operation completes at each turn. *)
Fixpoint run (schedule : list nat) (w : World) : World :=
  match schedule with
  | [] => w
  | k :: schedule' =>
      match deliver k w with
      | Some w' => run schedule' w'
      | None => w
      end
  end.

(** Changes fed to one page in turn, each with its two texts. *)
Fixpoint feed (page : ref) (changes : list (changeEnum * string * string))
    : M unit :=
  match changes with
  | [] => mret tt
  | (change, prevHtml, scannedHtml) :: changes' =>
      applyChange change page prevHtml scannedHtml;;
      feed page changes'
  end.
End WithCollaborators.

(** The Page object behind a reference, and the snapshot the store holds
    for it in a slot. *)
Definition deref (w : World) (page : ref) : Page.t := heap w !!! page.

Definition snapshot (w : World) (page : ref) (ty : htmlTypes) : string :=
  PageStore.loadHtml (html w) (Page.id (deref w page)) ty.

(** The snapshot writes among the events, and the keys of the records
    saved. *)
Definition htmlWrites (events : list Event)
    : list (JsValue * htmlTypes * string) :=
  flat_map (λ e, match e with
                 | ESaveHtml id ty text => [(id, ty, text)]
                 | _ => []
                 end) events.

Definition savedKeys (events : list Event) : list string :=
  flat_map (λ e, match e with
                 | EStorageSave key _ => [key]
                 | _ => []
                 end) events.

(** A field of the record the object store holds for a page id, if it
    holds one. *)
Definition persisted (w : World) (id : JsValue) (k : string) : option JsValue :=
  (λ data : Obj, getProp data k) <$> storage w !! Page._KEY id.

(** The events that order a run: a fetch starts, a change type is decided,
    the promise of [scan] fulfils. *)
Definition isMilestone (e : Event) : bool :=
  match e with
  | EFetch _ _ | EChangeType _ _ | EFulfilled => true
  | EConsoleLog _ | ELoadHtml _ _ | ESaveHtml _ _ _ | EStorageSave _ _ => false
  end.

Definition milestones (events : list Event) : list Event :=
  List.filter isMilestone events.

(** The fetches in flight, each with the pages that wait for it; the pages
    whose fetch has started, in order; how often the promise of [scan] has
    fulfilled. *)
Definition fetchOf (op : Pending) : list (ref * list ref) :=
  match op with
  | PFetch page _ rest | PText page _ rest => [(page, rest)]
  | PLoadHtml _ _ _ => []
  end.

Definition fetchOps (ops : list Pending) : list (ref * list ref) :=
  flat_map fetchOf ops.

Definition fetched (events : list Event) : list ref :=
  flat_map (λ e, match e with EFetch page _ => [page] | _ => [] end) events.

Definition fulfilled (events : list Event) : nat :=
  length (List.filter (λ e, match e with EFulfilled => true | _ => false end) events).

(** The state of the promise chain of [scan pageList]: either one fetch is
    in flight, the pages fetched so far and those waiting make up the list,
    and the promise is unfulfilled; or none is, every page has been fetched
    and the promise has fulfilled once. *)
Definition Chained (pageList : list ref) (w : World) : Prop :=
  match fetchOps (pending w) with
  | [] => fetched (log w) = pageList ∧ fulfilled (log w) = 1%nat
  | [(page, rest)] =>
      ∃ before, pageList = (before ++ page :: rest)%list ∧
                fetched (log w) = (before ++ [page])%list ∧
                fulfilled (log w) = 0%nat
  | _ :: _ :: _ => False
  end.

(** The change types decided for [page], in order. *)
Definition classifications (page : ref) (events : list Event) : list changeEnum :=
  flat_map (λ e, match e with
                 | EChangeType p change => if Nat.eqb p page then [change] else []
                 | _ => []
                 end) events.

(** Whether the change type of [page] is decided before any fetch of
    [next] starts. *)
Fixpoint classifiedFirst (page next : ref) (events : list Event) : bool :=
  match events with
  | [] => false
  | EFetch p _ :: events' =>
      if Nat.eqb p next then false else classifiedFirst page next events'
  | EChangeType p _ :: events' =>
      if Nat.eqb p page then true else classifiedFirst page next events'
  | _ :: events' => classifiedFirst page next events'
  end.

(** A turn that delivers the [k]-th operation if there is one, and whether
    there is one. *)
Definition turn (isMajorChange : string → string → JsValue → bool)
    (net : JsValue → FetchResult) (k : nat) (w : World) : World :=
  default w (deliver isMajorChange net k w).

Definition delivers (isMajorChange : string → string → JsValue → bool)
    (net : JsValue → FetchResult) (k : nat) (w : World) : bool :=
  match deliver isMajorChange net k w with Some _ => true | None => false end.

(** The world with one snapshot slot overwritten. *)
Definition withSlot (id : JsValue) (ty : htmlTypes) (text : string)
    (w : World) : World :=
  mkWorld (heap w) (<[(id, ty) := text]> (html w)) (storage w) (pending w) (log w).

End Scan.
Import Scan.

(** ** Concrete pages, networks and runs used below *)
Module Examples.

Definition examplePage : Page.t :=
  Page.new (JsString "7")
    (list_to_map [("url", JsString "http://example.org/");
                  ("error", JsBool false)]).

(** One tracked page, never scanned. *)
Definition exampleWorld : World := mkWorld [examplePage] ∅ ∅ [] [].

(** A page showing a counter, with the lowest threshold and
    [ignoreNumbers] set; its last fetch read "Count: 5". *)
Definition countPage : Page.t :=
  Page.new (JsString "42")
    (list_to_map [("url", JsString "http://example.org/counter");
                  ("changeThreshold", JsNumber 1);
                  ("ignoreNumbers", JsBool true)]).

Definition countWorld : World :=
  mkWorld [countPage] {[ (JsString "42", NEW) := "Count: 5" ]} ∅ [] [].

(** The counter now reads 9; no other address answers. *)
Definition countNet (url : JsValue) : FetchResult :=
  if decide (url = JsString "http://example.org/counter") then
    Response true 200 "OK" "Count: 9"
  else
    NetworkError (JsString "TypeError: NetworkError when attempting to fetch resource.").

(** A second page, never scanned, and a page whose address is gone. *)
Definition newsPage : Page.t :=
  Page.new (JsString "43")
    (list_to_map [("url", JsString "http://example.org/news")]).

Definition gonePage : Page.t :=
  Page.new (JsString "44")
    (list_to_map [("title", JsString "Gone");
                  ("url", JsString "http://example.org/gone");
                  ("state", JsString Page.stateEnum.CHANGED)]).

Definition siteNet (url : JsValue) : FetchResult :=
  if decide (url = JsString "http://example.org/counter") then
    Response true 200 "OK" "Count: 9"
  else if decide (url = JsString "http://example.org/news") then
    Response true 200 "OK" "<p>fresh</p>"
  else if decide (url = JsString "http://example.org/gone") then
    Response false 404 "Not Found" "<h1>404</h1>"
  else
    NetworkError (JsString "TypeError: NetworkError when attempting to fetch resource.").

(** Two pages that both answer. *)
Definition okWorld : World :=
  mkWorld [countPage; newsPage] {[ (JsString "42", NEW) := "Count: 5" ]} ∅ [] [].

(** A page that fails, followed by one that answers. *)
Definition failWorld : World :=
  mkWorld [gonePage; countPage]
    (<[ (JsString "44", NEW) := "<p>old</p>" ]>
       {[ (JsString "42", NEW) := "Count: 5" ]}) ∅ [] [].

(** The schedule that completes the oldest operation at each turn. *)
Definition fifo (turns : nat) : list nat := replicate turns 0%nat.

(** The three runs: the counter page alone; two pages that answer; a page
    that fails and one that answers. *)
Definition countRun : World :=
  run Fuzzy.isMajorChange countNet (fifo 3) (exec (scan [0%nat]) countWorld).

Definition okRun : World :=
  run Fuzzy.isMajorChange siteNet (fifo 6) (exec (scan [0; 1]%nat) okWorld).

Definition failRun : World :=
  run Fuzzy.isMajorChange siteNet (fifo 4) (exec (scan [0; 1]%nat) failWorld).

(** A page fed a major change, then one change of each category. *)
Definition firstChange : list (changeEnum * string * string) :=
  [(MAJOR_CHANGE, "a", "b")].

Definition laterChanges : list (changeEnum * string * string) :=
  [(NO_CHANGE, "b", "b"); (MINOR_CHANGE, "b", "c"); (NEW_CONTENT, "", "d");
   (MAJOR_CHANGE, "d", "e")].

End Examples.
Import Examples.

(** ** Keys and storage of the Page record *)
Module PageIO.

(** Whether a text holds a line terminator of the regular expression
    grammar: LF, CR, or U+2028 or U+2029, which a text in UTF-8 holds as the
    bytes 226 128 168 and 226 128 169. *)
Fixpoint hasLineTerminator (s : string) : bool :=
  match s with
  | EmptyString => false
  | String c rest =>
      if (Ascii.eqb c "010" || Ascii.eqb c "013")%bool then true
      else
        match rest with
        | String c2 (String c3 _) =>
            if (Ascii.eqb c "226" && Ascii.eqb c2 "128"
                && (Ascii.eqb c3 "168" || Ascii.eqb c3 "169"))%bool
            then true
            else hasLineTerminator rest
        | _ => hasLineTerminator rest
        end
  end.

(** The text after a prefix, if the text starts with it. *)
Fixpoint dropPrefix (prefix s : string) : option string :=
  match prefix with
  | EmptyString => Some s
  | String a prefix' =>
      match s with
      | EmptyString => None
      | String b s' => if Ascii.eqb a b then dropPrefix prefix' s' else None
      end
  end.

(** [Page.idFromKey(key)]: the pattern given to [key.match] is the start of
    the text, [page:], a group of any characters and the end of the text.
    It matches when the key starts with [page:] and no line terminator
    follows, since the dot matches none and the dollar only the end of the
    text; the group is the rest of the key.  [null] is [None]. *)
Definition idFromKey (key : string) : option string :=
  match dropPrefix "page:" key with
  | Some id => if hasLineTerminator id then None else Some id
  | None => None
  end.

(** [Page.isPageKey(key)] *)
Definition isPageKey (key : string) : bool :=
  match idFromKey key with
  | Some _ => true
  | None => false
  end.

(** Modelled from the spec: the object store behind the missing module
    [util/storage]; section 6: values under string keys, [load] giving the
    value or nothing, [save] and [remove] acknowledging, each operation
    reporting a failure as an error. *)
Abbreviation ObjectStore := (gmap string Obj).

(** What one storage operation does: it works, or it fails with an error
    and leaves the store as it is. *)
Inductive Outcome : Type :=
| Works
| Fails (error : JsValue).

(** [Page.load(id)]: the Page and the lines given to [log].  A missing
    value is [undefined], which [|| {}] replaces by the empty object. *)
Definition load (id : JsValue) (st : ObjectStore) (outcome : Outcome)
    : Page.t * list string :=
  match outcome with
  | Works => (Page.new id (default ∅ (st !! Page._KEY id)), [])
  | Fails error => (Page.new id ∅, ["ERROR: Page.load: " ++ toStr error])
  end.

(** [page.save()]: the store after it and the lines given to [log]. *)
Definition save (p : Page.t) (st : ObjectStore) (outcome : Outcome)
    : ObjectStore * list string :=
  match outcome with
  | Works => (<[Page._KEY (Page.id p) := Page._toObject p]> st, [])
  | Fails error => (st, ["ERROR: Page.save: " ++ toStr error])
  end.

(** [page.delete()]: the store after it and the lines given to [log]. *)
Definition delete (p : Page.t) (st : ObjectStore) (outcome : Outcome)
    : ObjectStore * list string :=
  match outcome with
  | Works => (base.delete (Page._KEY (Page.id p)) st, [])
  | Fails error => (st, ["ERROR: Page.delete: " ++ toStr error])
  end.

End PageIO.

(** ** Projections and measures of a run *)

(** A Page with its three scan fields blanked: what is left is its id and
    its configuration, the three times included. *)
Definition config (p : Page.t) : Page.t :=
  Page.set_state JsNull (Page.set_error JsNull (Page.set_errorMessage JsNull p)).

(** The pages an operation in flight still concerns, and the turns it can
    still cause: a fetch is followed by the body read and the load, and by
    the same for every page that waits. *)
Definition pagesOf (op : Pending) : list ref :=
  match op with
  | PFetch page _ rest | PText page _ rest => page :: rest
  | PLoadHtml page _ _ => [page]
  end.

Definition turnsLeft (op : Pending) : nat :=
  match op with
  | PFetch _ _ rest => 3 + 3 * length rest
  | PText _ _ rest => 2 + 3 * length rest
  | PLoadHtml _ _ _ => 1
  end.

Definition workLeft (ops : list Pending) : nat := sum_list_with turnsLeft ops.

(** The operations in flight concern pages of the list only. *)
Definition Listed (pageList : list ref) (w : World) : Prop :=
  ∀ op q, op ∈ pending w → q ∈ pagesOf op → q ∈ pageList.

(** The change type [_updatePageState] decides for a page and two texts. *)
Definition decided (isMajorChange : string → string → JsValue → bool)
    (page : ref) (prevHtml scannedHtml : string) (w : World) : changeEnum :=
  answer isMajorChange
    (_getChangeType prevHtml scannedHtml (Page.changeThreshold (deref w page))).

(** ** More concrete values used below *)

(** An id that spans two lines. *)
Definition twoLineId : string := String "a" (String "010" (String "b" EmptyString)).

(** An object store that holds the record of one page. *)
Definition exampleStore : PageIO.ObjectStore :=
  {[ Page._KEY (JsString "43") := Page._toObject newsPage ]}.

(** * Properties *)

(** ** The Page record *)

Lemma param_defined (data : Obj) (k : string) (v : JsValue) :
  data !! k = Some v → v ≠ JsUndefined → Page.param data k = v.
Proof.
  intros Hk Hv. unfold Page.param, getProp. rewrite Hk.
  by destruct v.
Qed.

(** A property left [undefined] comes back as its default. *)
Lemma param_undefined (data : Obj) (k : string) :
  getProp data k = JsUndefined → Page.param data k = getProp Page.DEFAULTS k.
Proof. intros Hk. unfold Page.param. by rewrite Hk. Qed.

Ltac field_back :=
  apply param_defined; [vm_compute; reflexivity | assumption].

(** C10: a Page whose serialised fields are all defined (null allowed) is
    rebuilt field for field by [new Page(p.id, p._toObject())]. *)
Theorem page_toObject_roundtrip (p : Page.t) :
  Page.allDefined p → Page.new (Page.id p) (Page._toObject p) = p.
Proof.
  destruct p as [i f1 f2 f3 f4 f5 f6 f7 f8 f9 f10 f11 f12 f13 f14 f15 f16 f17].
  unfold Page.allDefined; cbn [Page.id Page.title Page.url Page.scanRateMinutes
    Page.changeThreshold Page.ignoreNumbers Page.encoding Page.highlightChanges
    Page.highlightColour Page.markChanges Page.doPost Page.postParams Page.state
    Page.error Page.errorMessage Page.lastAutoscanTime Page.oldScanTime
    Page.newScanTime].
  intros Hall.
  repeat match goal with
         | H : Forall _ (_ :: _) |- _ =>
             apply Forall_cons in H; destruct H as [? H]
         end.
  unfold Page.new. f_equal; field_back.
Qed.

Lemma page_toObject_roundtrip_witness :
  Page.allDefined examplePage ∧
  Page.new (Page.id examplePage) (Page._toObject examplePage) = examplePage.
Proof.
  assert (Hall : Page.allDefined examplePage).
  { unfold Page.allDefined. vm_compute. repeat (constructor; [discriminate |]). constructor. }
  split; [exact Hall | exact (page_toObject_roundtrip examplePage Hall)].
Defined.

(** Without the side condition the round trip fails: an [undefined] title
    is replaced by the default title. *)
Lemma page_toObject_undefined_title :
  let p := Page.mk JsNull JsUndefined JsNull JsNull JsNull JsNull JsNull JsNull
             JsNull JsNull JsNull JsNull JsNull JsNull JsNull JsNull JsNull JsNull in
  Page.title (Page.new (Page.id p) (Page._toObject p)) = JsString "New Page".
Proof. vm_compute. reflexivity. Qed.

(** ** The change classifier *)

Lemma getChangeType_first_scan (html2 : string) (t : JsValue) :
  _getChangeType "" html2 t = Answer NEW_CONTENT.
Proof. reflexivity. Qed.

Lemma getChangeType_compare (html1 html2 : string) (t : JsValue) :
  html1 ≠ "" → html1 ≠ html2 →
  _getChangeType html1 html2 t =
    CallFuzzy html1 html2 t
      (λ major, if major then Answer MAJOR_CHANGE else Answer MINOR_CHANGE).
Proof.
  intros Hne Hdiff. unfold _getChangeType.
  destruct (String.eqb_spec html1 "") as [-> | _]; [done |].
  destruct (String.eqb_spec html1 html2) as [-> | _]; done.
Qed.

(** C5: the order of the decisions of [_getChangeType]: an empty old text is
    new content (also against an empty new text); otherwise equal texts are
    no change, decided with no call of the comparator; otherwise the
    comparator is called once, on the two texts and the threshold, and its
    answer picks major or minor. *)
Theorem getChangeType_decision_order (html1 html2 : string) (t : JsValue) :
  (html1 = "" → _getChangeType html1 html2 t = Answer NEW_CONTENT) ∧
  (html1 ≠ "" → html1 = html2 →
     _getChangeType html1 html2 t = Answer NO_CHANGE) ∧
  (html1 ≠ "" → html1 ≠ html2 →
     ∀ isMajorChange : string → string → JsValue → bool,
       calls isMajorChange (_getChangeType html1 html2 t) = [(html1, html2, t)] ∧
       answer isMajorChange (_getChangeType html1 html2 t) =
         if isMajorChange html1 html2 t then MAJOR_CHANGE else MINOR_CHANGE).
Proof.
  split; [| split].
  - intros ->. apply getChangeType_first_scan.
  - intros Hne <-. unfold _getChangeType.
    destruct (String.eqb_spec html1 "") as [-> | _]; [done |].
    by rewrite String.eqb_refl.
  - intros Hne Hdiff isMajorChange.
    rewrite (getChangeType_compare _ _ t Hne Hdiff). cbn.
    by destruct (isMajorChange html1 html2 t).
Qed.

Lemma getChangeType_decision_order_witness :
  _getChangeType "" "" (JsNumber 100) = Answer NEW_CONTENT ∧
  _getChangeType "same" "same" (JsNumber 100) = Answer NO_CHANGE ∧
  calls Fuzzy.isMajorChange (_getChangeType "abc" "abd" (JsNumber 2))
    = [("abc", "abd", JsNumber 2)] ∧
  answer Fuzzy.isMajorChange (_getChangeType "abc" "abd" (JsNumber 2))
    = MAJOR_CHANGE.
Proof.
  split; [| split].
  - apply (proj1 (getChangeType_decision_order "" "" (JsNumber 100))).
    reflexivity.
  - apply (proj1 (proj2 (getChangeType_decision_order "same" "same" (JsNumber 100)))).
    + discriminate.
    + reflexivity.
  - apply (proj2 (proj2 (getChangeType_decision_order "abc" "abd" (JsNumber 2)))
             ltac:(discriminate) ltac:(discriminate) Fuzzy.isMajorChange).
Defined.

(** The threshold is met exactly when the measure reaches it. *)
Lemma isMajorChangeBy_ge (measure : string → string → Z)
    (old new : string) (t : Z) :
  Fuzzy.isMajorChangeBy measure old new (JsNumber t) = true ↔ t ≤ measure old new.
Proof. unfold Fuzzy.isMajorChangeBy. apply Z.leb_le. Qed.

(** C6, as the code has it: for a non-empty old text and a different new
    text, a threshold equal to the measured magnitude gives a major change
    (the comparison is [>=]) and a threshold one above the magnitude, that
    is a magnitude of the threshold less one, gives a minor change. *)
Theorem threshold_boundary (measure : string → string → Z)
    (html1 html2 : string) :
  html1 ≠ "" → html1 ≠ html2 →
  answer (Fuzzy.isMajorChangeBy measure)
    (_getChangeType html1 html2 (JsNumber (measure html1 html2)))
    = MAJOR_CHANGE ∧
  answer (Fuzzy.isMajorChangeBy measure)
    (_getChangeType html1 html2 (JsNumber (measure html1 html2 + 1)))
    = MINOR_CHANGE.
Proof.
  intros Hne Hdiff.
  rewrite !(getChangeType_compare _ _ _ Hne Hdiff). cbn [answer].
  assert (Hge : Fuzzy.isMajorChangeBy measure html1 html2
                  (JsNumber (measure html1 html2)) = true)
    by (apply isMajorChangeBy_ge; lia).
  assert (Hlt : Fuzzy.isMajorChangeBy measure html1 html2
                  (JsNumber (measure html1 html2 + 1)) = false).
  { apply not_true_is_false. rewrite isMajorChangeBy_ge. lia. }
  by rewrite Hge, Hlt.
Qed.

Lemma threshold_boundary_witness :
  Fuzzy.magnitude "abc" "abd" = 2 ∧
  answer Fuzzy.isMajorChange (_getChangeType "abc" "abd" (JsNumber 2))
    = MAJOR_CHANGE ∧
  answer Fuzzy.isMajorChange (_getChangeType "abc" "abd" (JsNumber 3))
    = MINOR_CHANGE.
Proof.
  split; [reflexivity |].
  apply (threshold_boundary Fuzzy.magnitude "abc" "abd"); discriminate.
Defined.

(** C6 as stated fails where an earlier decision applies: against an empty
    old text a magnitude equal to the threshold, or one below it, is new
    content; and equal texts, at magnitude and threshold zero, are no
    change. *)
Lemma threshold_boundary_counterexample :
  (Fuzzy.magnitude "" "abc" = 3 ∧
   answer Fuzzy.isMajorChange (_getChangeType "" "abc" (JsNumber 3))
     ≠ MAJOR_CHANGE) ∧
  ("" ≠ "abc" ∧ Fuzzy.magnitude "" "abc" = 4 - 1 ∧
   answer Fuzzy.isMajorChange (_getChangeType "" "abc" (JsNumber 4))
     ≠ MINOR_CHANGE) ∧
  (Fuzzy.magnitude "abc" "abc" = 0 ∧
   answer Fuzzy.isMajorChange (_getChangeType "abc" "abc" (JsNumber 0))
     ≠ MAJOR_CHANGE).
Proof. vm_compute. repeat split; discriminate. Qed.

(** ** The page state machine and its snapshot writes *)

Ltac unfold_M :=
  unfold exec, _updatePageState, changeType, applyChange, _processHtml,
    _scanPage, _scanPage_catch, chain, scan, save, storageSave, Scan.saveHtml,
    Scan.loadHtml, consoleLog, assign, get, suspend, emit, modify, reads,
    mbind, M_bind, mret, M_ret in *.

Ltac read_altered :=
  rewrite ?list_lookup_total_alter_eq by (rewrite ?length_alter; done).

Ltac world_fields :=
  cbn [Scan.heap Scan.html Scan.storage Scan.pending Scan.log] in *.

(** Sequencing runs the first computation, then the second on the world
    the first one leaves. *)
Lemma exec_then {B} (m : M unit) (k : M B) (w : World) :
  exec (m;; k) w = exec k (exec m w).
Proof. unfold exec, mbind, M_bind. by destruct (m w) as [[] w1]. Qed.

Lemma looseEqWord_true (v : JsValue) (s : string) :
  looseEqWord v s = true ↔ v = JsString s.
Proof.
  destruct v as [| | b | n | x]; cbn [looseEqWord].
  5: { rewrite String.eqb_eq. split; [by intros -> | by intros [= ->]]. }
  all: split; [discriminate | intros [=]].
Qed.

Lemma looseEqWord_false (v : JsValue) (s : string) :
  looseEqWord v s = false ↔ v ≠ JsString s.
Proof. rewrite <- looseEqWord_true. by destruct (looseEqWord v s). Qed.

Lemma htmlWrites_app (l1 l2 : list Event) :
  htmlWrites (l1 ++ l2) = (htmlWrites l1 ++ htmlWrites l2)%list.
Proof. apply flat_map_app. Qed.

Lemma applyChange_length change page prevHtml scannedHtml w :
  length (heap (exec (applyChange change page prevHtml scannedHtml) w))
  = length (heap w).
Proof.
  unfold_M.
  destruct change; cbn; destruct (looseEqWord _ _); cbn;
    by rewrite !length_alter.
Qed.

(** The transition of [page.state]. *)
Lemma applyChange_state change page prevHtml scannedHtml w :
  (page < length (heap w))%nat →
  Page.state (deref (exec (applyChange change page prevHtml scannedHtml) w) page)
  = stateAfter change (Page.state (deref w page)).
Proof.
  intros Hin. unfold deref. unfold_M.
  destruct change; cbn; destruct (looseEqWord _ _) eqn:E; cbn;
    read_altered; done.
Qed.

(** The id and the configuration stay; a successful scan clears the error
    fields. *)
Lemma applyChange_fields change page prevHtml scannedHtml w :
  (page < length (heap w))%nat →
  Page.id (deref (exec (applyChange change page prevHtml scannedHtml) w) page)
    = Page.id (deref w page) ∧
  Page.error (deref (exec (applyChange change page prevHtml scannedHtml) w) page)
    = JsBool false ∧
  Page.errorMessage
      (deref (exec (applyChange change page prevHtml scannedHtml) w) page)
    = JsString "".
Proof.
  intros Hin. unfold deref. unfold_M.
  destruct change; cbn; destruct (looseEqWord _ _) eqn:E; cbn;
    read_altered; done.
Qed.

(** Other Page objects are not touched. *)
Lemma applyChange_other change page prevHtml scannedHtml w other :
  other ≠ page →
  heap (exec (applyChange change page prevHtml scannedHtml) w) !! other
  = heap w !! other.
Proof.
  intros Hne. unfold_M.
  destruct change; cbn; destruct (looseEqWord _ _); cbn;
    by rewrite !list_lookup_alter_ne.
Qed.

(** The operations in flight are not touched either. *)
Lemma applyChange_pending change page prevHtml scannedHtml w :
  pending (exec (applyChange change page prevHtml scannedHtml) w) = pending w.
Proof.
  unfold_M. destruct change; cbn; destruct (looseEqWord _ _); done.
Qed.

(** The snapshot store and the events after a change is applied: which
    slots are written, in which order, and the one save of the record. *)
Lemma applyChange_snapshots change page prevHtml scannedHtml w :
  (page < length (heap w))%nat →
  ∃ data,
    match change with
    | NO_CHANGE =>
        html (exec (applyChange change page prevHtml scannedHtml) w) = html w ∧
        log (exec (applyChange change page prevHtml scannedHtml) w)
        = (log w ++ [EStorageSave (Page._KEY (Page.id (deref w page))) data])%list
    | NEW_CONTENT | MINOR_CHANGE =>
        html (exec (applyChange change page prevHtml scannedHtml) w)
        = <[(Page.id (deref w page), NEW) := scannedHtml]> (html w) ∧
        log (exec (applyChange change page prevHtml scannedHtml) w)
        = (log w ++ [ESaveHtml (Page.id (deref w page)) NEW scannedHtml;
                     EStorageSave (Page._KEY (Page.id (deref w page))) data])%list
    | MAJOR_CHANGE =>
        if looseEqWord (Page.state (deref w page)) Page.stateEnum.CHANGED then
          html (exec (applyChange change page prevHtml scannedHtml) w)
          = <[(Page.id (deref w page), NEW) := scannedHtml]> (html w) ∧
          log (exec (applyChange change page prevHtml scannedHtml) w)
          = (log w ++ [ESaveHtml (Page.id (deref w page)) NEW scannedHtml;
                       EStorageSave (Page._KEY (Page.id (deref w page))) data])%list
        else
          html (exec (applyChange change page prevHtml scannedHtml) w)
          = <[(Page.id (deref w page), NEW) := scannedHtml]>
              (<[(Page.id (deref w page), OLD) := prevHtml]> (html w)) ∧
          log (exec (applyChange change page prevHtml scannedHtml) w)
          = (log w ++ [ESaveHtml (Page.id (deref w page)) OLD prevHtml;
                       ESaveHtml (Page.id (deref w page)) NEW scannedHtml;
                       EStorageSave (Page._KEY (Page.id (deref w page))) data])%list
    end.
Proof.
  intros Hin. unfold deref. unfold_M. unfold PageStore.saveHtml.
  destruct change; cbn; destruct (looseEqWord _ _) eqn:E; cbn;
    read_altered; cbn; rewrite <- ?app_assoc; eexists; done.
Qed.

Lemma stateAfter_changed change :
  stateAfter change (JsString Page.stateEnum.CHANGED)
  = JsString Page.stateEnum.CHANGED.
Proof. by destruct change. Qed.

Lemma feed_cons page change prevHtml scannedHtml changes w :
  exec (feed page ((change, prevHtml, scannedHtml) :: changes)) w
  = exec (feed page changes) (exec (applyChange change page prevHtml scannedHtml) w).
Proof.
  cbn [feed]. unfold exec, mbind, M_bind.
  by destruct (applyChange change page prevHtml scannedHtml w) as [[] w1].
Qed.

Lemma feed_app page before after w :
  exec (feed page (before ++ after)) w
  = exec (feed page after) (exec (feed page before) w).
Proof.
  revert w. induction before as [| [[change prevHtml] scannedHtml] before IH];
    intros w; [done |].
  cbn [app]. by rewrite !feed_cons, IH.
Qed.

Lemma feed_length page changes w :
  length (heap (exec (feed page changes) w)) = length (heap w).
Proof.
  revert w. induction changes as [| [[change prevHtml] scannedHtml] changes IH];
    intros w; [done |].
  by rewrite feed_cons, IH, applyChange_length.
Qed.

Lemma feed_keeps_changed page changes w :
  (page < length (heap w))%nat →
  Page.state (deref w page) = JsString Page.stateEnum.CHANGED →
  Page.state (deref (exec (feed page changes) w) page)
  = JsString Page.stateEnum.CHANGED.
Proof.
  revert w. induction changes as [| [[change prevHtml] scannedHtml] changes IH];
    intros w Hin Hst; [done |].
  rewrite feed_cons. apply IH.
  - by rewrite applyChange_length.
  - by rewrite applyChange_state, Hst, stateAfter_changed.
Qed.

(** C4: once a page is CHANGED, whatever changes are fed to it next, of any
    of the four categories and with any texts, leave it CHANGED; this from
    any starting state, NO_CHANGE included. *)
Theorem changed_is_absorbing (page : ref)
    (before after : list (changeEnum * string * string)) (w : World) :
  (page < length (heap w))%nat →
  Page.state (deref (exec (feed page before) w) page)
    = JsString Page.stateEnum.CHANGED →
  Page.state (deref (exec (feed page (before ++ after)) w) page)
    = JsString Page.stateEnum.CHANGED.
Proof.
  intros Hin Hst. rewrite feed_app.
  apply feed_keeps_changed; [by rewrite feed_length | done].
Qed.

Lemma changed_is_absorbing_witness :
  Page.state (deref exampleWorld 0) = JsString Page.stateEnum.NO_CHANGE ∧
  Page.state (deref (exec (feed 0 (firstChange ++ laterChanges)) exampleWorld) 0)
    = JsString Page.stateEnum.CHANGED.
Proof.
  split; [reflexivity |].
  apply (changed_is_absorbing 0 firstChange laterChanges exampleWorld).
  - cbn. lia.
  - vm_compute. reflexivity.
Defined.

(** What [_processHtml] does: it asks for the NEW snapshot and leaves
    [_updatePageState] waiting for it, with the text the store holds. *)
Lemma processHtml_exec page scannedHtml w :
  exec (_processHtml page scannedHtml) w
  = mkWorld (heap w) (html w) (storage w)
      (pending w ++ [PLoadHtml page (snapshot w page NEW) scannedHtml])
      (log w ++ [ELoadHtml (Page.id (deref w page)) NEW]).
Proof. reflexivity. Qed.

(** The operation requested last is delivered at index [length pending]. *)
Lemma deliver_last isMajorChange net op heap0 html0 storage0 pending0 log0 :
  deliver isMajorChange net (length pending0)
    (mkWorld heap0 html0 storage0 (pending0 ++ [op]) log0)
  = Some (exec (resume isMajorChange net op)
            (mkWorld heap0 html0 storage0 pending0 log0)).
Proof.
  unfold deliver. world_fields.
  rewrite list_lookup_middle by done.
  by rewrite delete_middle, app_nil_r.
Qed.

Lemma updatePageState_exec isMajorChange page prevHtml scannedHtml w :
  exec (_updatePageState isMajorChange page prevHtml scannedHtml) w
  = exec (applyChange
            (answer isMajorChange
               (_getChangeType prevHtml scannedHtml
                  (Page.changeThreshold (deref w page))))
            page prevHtml scannedHtml)
      (mkWorld (heap w) (html w) (storage w) (pending w)
         (log w ++ [EChangeType page
                      (answer isMajorChange
                         (_getChangeType prevHtml scannedHtml
                            (Page.changeThreshold (deref w page))))])).
Proof. reflexivity. Qed.

(** C7: a major change on a page that is not CHANGED, with NEW snapshot [X]
    and fetched text [Y], writes [X] to the OLD slot and then [Y] to the NEW
    slot; on a page that is already CHANGED it writes [Y] to the NEW slot
    only and the OLD slot stays as it is. *)
Theorem major_change_snapshots
    (isMajorChange : string → string → JsValue → bool)
    (net : JsValue → FetchResult) (page : ref) (Y : string) (w : World) :
  (page < length (heap w))%nat →
  answer isMajorChange
    (_getChangeType (snapshot w page NEW) Y (Page.changeThreshold (deref w page)))
    = MAJOR_CHANGE →
  ∃ w',
    deliver isMajorChange net (length (pending w))
      (exec (_processHtml page Y) w) = Some w' ∧
    Page.state (deref w' page) = JsString Page.stateEnum.CHANGED ∧
    snapshot w' page NEW = Y ∧
    (Page.state (deref w page) ≠ JsString Page.stateEnum.CHANGED →
       snapshot w' page OLD = snapshot w page NEW ∧
       htmlWrites (log w')
       = (htmlWrites (log w)
          ++ [(Page.id (deref w page), OLD, snapshot w page NEW);
              (Page.id (deref w page), NEW, Y)])%list) ∧
    (Page.state (deref w page) = JsString Page.stateEnum.CHANGED →
       snapshot w' page OLD = snapshot w page OLD ∧
       html w' !! (Page.id (deref w page), OLD)
       = html w !! (Page.id (deref w page), OLD) ∧
       htmlWrites (log w')
       = (htmlWrites (log w) ++ [(Page.id (deref w page), NEW, Y)])%list).
Proof.
  intros Hin Hmajor.
  rewrite processHtml_exec, deliver_last. cbn [resume].
  rewrite updatePageState_exec.
  set (w1 := mkWorld _ _ _ _ (_ ++ [EChangeType _ _])%list).
  assert (Hin1 : (page < length (heap w1))%nat) by done.
  assert (Hd : deref w1 page = deref w page) by done.
  assert (Hh : html w1 = html w) by done.
  assert (Hl : htmlWrites (log w1) = htmlWrites (log w)).
  { subst w1. world_fields. rewrite !htmlWrites_app. cbn. by rewrite !app_nil_r. }
  change (deref (mkWorld _ _ _ _ _) page) with (deref w page).
  rewrite Hmajor.
  destruct (applyChange_snapshots MAJOR_CHANGE page (snapshot w page NEW) Y w1 Hin1)
    as [data Hw].
  pose proof (applyChange_state MAJOR_CHANGE page (snapshot w page NEW) Y w1 Hin1)
    as Hst.
  destruct (applyChange_fields MAJOR_CHANGE page (snapshot w page NEW) Y w1 Hin1)
    as (Hid & _).
  clearbody w1. rewrite Hd, ?Hh in *.
  eexists. split; [reflexivity |].
  split; [exact Hst |].
  assert (Hsnap : ∀ ty,
    snapshot (exec (applyChange MAJOR_CHANGE page (snapshot w page NEW) Y) w1) page ty
    = PageStore.loadHtml
        (html (exec (applyChange MAJOR_CHANGE page (snapshot w page NEW) Y) w1))
        (Page.id (deref w page)) ty).
  { intros ty. unfold snapshot at 1. by rewrite Hid. }
  rewrite !Hsnap. unfold snapshot at 3. unfold PageStore.loadHtml.
  destruct (looseEqWord (Page.state (deref w page)) Page.stateEnum.CHANGED) eqn:E;
    destruct Hw as [Hhtml Hlog]; rewrite Hhtml, Hlog, !htmlWrites_app, Hl; cbn;
    rewrite ?app_nil_r.
  - apply looseEqWord_true in E.
    split; [by rewrite lookup_insert_eq |]. split; [done |].
    intros _. rewrite lookup_insert_ne by (intros [=]). done.
  - apply looseEqWord_false in E.
    split; [by rewrite lookup_insert_eq |]. split; [| done].
    intros _. rewrite lookup_insert_ne by (intros [=]).
    by rewrite lookup_insert_eq.
Qed.

Lemma major_change_snapshots_witness :
  Page.state (deref countWorld 0) ≠ JsString Page.stateEnum.CHANGED ∧
  snapshot countWorld 0 NEW = "Count: 5" ∧
  ∃ w', deliver Fuzzy.isMajorChange countNet 0
          (exec (_processHtml 0 "Count: 9") countWorld) = Some w' ∧
        snapshot w' 0 OLD = "Count: 5" ∧
        snapshot w' 0 NEW = "Count: 9".
Proof.
  assert (Hin : (0 < length (heap countWorld))%nat) by (cbn; lia).
  assert (Hmajor :
    answer Fuzzy.isMajorChange
      (_getChangeType (snapshot countWorld 0 NEW) "Count: 9"
         (Page.changeThreshold (deref countWorld 0)))
    = MAJOR_CHANGE) by (vm_compute; reflexivity).
  assert (Hfresh : Page.state (deref countWorld 0)
                   ≠ JsString Page.stateEnum.CHANGED) by (vm_compute; discriminate).
  destruct (major_change_snapshots Fuzzy.isMajorChange countNet 0 "Count: 9"
              countWorld Hin Hmajor)
    as (w' & Hdeliver & _ & Hnew & Hfirst & _).
  destruct (Hfirst Hfresh) as (Hold & _).
  split; [exact Hfresh |]. split; [reflexivity |].
  exists w'. split; [exact Hdeliver |]. split; [exact Hold | exact Hnew].
Defined.

(** C8: a NO_CHANGE classification writes no snapshot: the store is as
    before and no snapshot write is among the events; the page stays
    CHANGED if it was CHANGED and is NO_CHANGE otherwise. *)
Theorem no_change_writes_no_snapshot
    (isMajorChange : string → string → JsValue → bool)
    (page : ref) (prevHtml scannedHtml : string) (w : World) :
  (page < length (heap w))%nat →
  answer isMajorChange
    (_getChangeType prevHtml scannedHtml (Page.changeThreshold (deref w page)))
    = NO_CHANGE →
  html (exec (_updatePageState isMajorChange page prevHtml scannedHtml) w)
    = html w ∧
  htmlWrites (log (exec (_updatePageState isMajorChange page prevHtml scannedHtml) w))
    = htmlWrites (log w) ∧
  (Page.state (deref w page) = JsString Page.stateEnum.CHANGED →
     Page.state
       (deref (exec (_updatePageState isMajorChange page prevHtml scannedHtml) w) page)
     = JsString Page.stateEnum.CHANGED) ∧
  (Page.state (deref w page) ≠ JsString Page.stateEnum.CHANGED →
     Page.state
       (deref (exec (_updatePageState isMajorChange page prevHtml scannedHtml) w) page)
     = JsString Page.stateEnum.NO_CHANGE).
Proof.
  intros Hin Hsame.
  rewrite updatePageState_exec, Hsame.
  set (w1 := mkWorld _ _ _ _ _).
  assert (Hin1 : (page < length (heap w1))%nat) by done.
  assert (Hd : deref w1 page = deref w page) by done.
  assert (Hh : html w1 = html w) by done.
  assert (Hl : htmlWrites (log w1) = htmlWrites (log w)).
  { subst w1. world_fields. rewrite !htmlWrites_app. cbn. by rewrite !app_nil_r. }
  destruct (applyChange_snapshots NO_CHANGE page prevHtml scannedHtml w1 Hin1)
    as [data [Hhtml Hlog]].
  pose proof (applyChange_state NO_CHANGE page prevHtml scannedHtml w1 Hin1) as Hst.
  clearbody w1. rewrite Hd, ?Hh in *.
  split; [exact Hhtml |]. split.
  - rewrite Hlog, !htmlWrites_app, Hl. cbn. by rewrite !app_nil_r.
  - rewrite Hst. unfold stateAfter. split; intros Hp.
    + by rewrite Hp.
    + apply looseEqWord_false in Hp. by rewrite Hp.
Qed.

Lemma no_change_writes_no_snapshot_witness :
  html (exec (_updatePageState Fuzzy.isMajorChange 0 "Count: 5" "Count: 5")
          countWorld) = html countWorld ∧
  Page.state
    (deref (exec (_updatePageState Fuzzy.isMajorChange 0 "Count: 5" "Count: 5")
              countWorld) 0)
  = JsString Page.stateEnum.NO_CHANGE.
Proof.
  assert (Hin : (0 < length (heap countWorld))%nat) by (cbn; lia).
  assert (Hsame :
    answer Fuzzy.isMajorChange
      (_getChangeType "Count: 5" "Count: 5"
         (Page.changeThreshold (deref countWorld 0))) = NO_CHANGE)
    by (vm_compute; reflexivity).
  destruct (no_change_writes_no_snapshot Fuzzy.isMajorChange 0
              "Count: 5" "Count: 5" countWorld Hin Hsame)
    as (Hhtml & _ & _ & Hfresh).
  split; [exact Hhtml |].
  apply Hfresh. vm_compute. discriminate.
Defined.

(** The events of a change applied come after those already there. *)
Lemma applyChange_log_grows change page prevHtml scannedHtml w :
  ∃ later,
    log (exec (applyChange change page prevHtml scannedHtml) w)
    = (log w ++ later)%list.
Proof.
  unfold_M. destruct change; cbn; destruct (looseEqWord _ _); cbn;
    rewrite <- ?app_assoc; eexists; reflexivity.
Qed.

Lemma resume_text_pending isMajorChange net page text rest w :
  pending (exec (resume isMajorChange net (PText page text rest)) w)
    !! length (pending w)
  = Some (PLoadHtml page (snapshot w page NEW) text).
Proof.
  cbn [resume]. unfold exec, mbind, M_bind.
  pose proof (processHtml_exec page text w) as Hp. unfold exec in Hp.
  destruct (_processHtml page text w) as [[] w1]. cbn [snd] in Hp. subst w1.
  destruct rest as [| next rest']; do 2 (unfold_M; cbn).
  - by rewrite list_lookup_middle.
  - rewrite <- app_assoc. cbn [app]. by rewrite list_lookup_middle.
Qed.

(** C9: when the text of a fetched page arrives, the old side of the
    classification is the page's stored NEW snapshot: the load left waiting
    carries it, whatever the OLD slot holds, and when the load is delivered
    [_getChangeType] is applied to the text it carries as its first
    argument. *)
Theorem baseline_is_new_snapshot
    (isMajorChange : string → string → JsValue → bool)
    (net : JsValue → FetchResult)
    (page : ref) (text : string) (rest : list ref) (w : World) :
  pending (exec (resume isMajorChange net (PText page text rest)) w)
    !! length (pending w)
  = Some (PLoadHtml page (snapshot w page NEW) text) ∧
  (∀ old : string,
     pending (exec (resume isMajorChange net (PText page text rest))
                (withSlot (Page.id (deref w page)) OLD old w))
       !! length (pending w)
     = Some (PLoadHtml page (snapshot w page NEW) text)) ∧
  (∀ (prevHtml : string) (w1 : World),
     ∃ later,
       log (exec (resume isMajorChange net (PLoadHtml page prevHtml text)) w1)
       = (log w1 ++
          EChangeType page
            (answer isMajorChange
               (_getChangeType prevHtml text
                  (Page.changeThreshold (deref w1 page)))) :: later)%list).
Proof.
  split; [apply resume_text_pending | split].
  - intros old.
    pose proof (resume_text_pending isMajorChange net page text rest
                  (withSlot (Page.id (deref w page)) OLD old w)) as Hp.
    assert (Hsnap : snapshot (withSlot (Page.id (deref w page)) OLD old w) page NEW
                    = snapshot w page NEW).
    { unfold snapshot, withSlot, deref, PageStore.loadHtml. world_fields.
      by rewrite lookup_insert_ne by (intros [=]). }
    by rewrite Hsnap in Hp.
  - intros prevHtml w1. cbn [resume]. rewrite updatePageState_exec.
    destruct (applyChange_log_grows
                (answer isMajorChange
                   (_getChangeType prevHtml text
                      (Page.changeThreshold (deref w1 page))))
                page prevHtml text
                (mkWorld (heap w1) (html w1) (storage w1) (pending w1)
                   (log w1 ++ [EChangeType page
                      (answer isMajorChange
                         (_getChangeType prevHtml text
                            (Page.changeThreshold (deref w1 page))))])))
      as [later ->].
    exists later. world_fields. by rewrite <- app_assoc.
Qed.

(** ** The scan of a list of pages *)

(** A run, one turn at a time. *)
Lemma run_cons isMajorChange net k schedule w :
  run isMajorChange net (k :: schedule) w
  = if delivers isMajorChange net k w
    then run isMajorChange net schedule (turn isMajorChange net k w)
    else w.
Proof.
  unfold delivers, turn. cbn [run].
  by destruct (deliver isMajorChange net k w).
Qed.

Lemma delivers_beyond isMajorChange net k w :
  Nat.leb (length (pending w)) 2 = true →
  delivers isMajorChange net (S (S k)) w = false.
Proof.
  intros Hlen%Nat.leb_le. unfold delivers, deliver.
  rewrite lookup_ge_None_2; [done | lia].
Qed.

(** Closed statements about a finished run are computed; [split_run]
    leaves the last conjunct, about every schedule. *)
Ltac split_run :=
  repeat match goal with
         | |- _ ∧ _ => split; [vm_compute; reflexivity |]
         end.

(** Every schedule on a concrete world: turn by turn, an operation that is
    there is delivered and the rest of the schedule explored, an index with
    no operation ends the run; the statement is computed on each world
    where a run can end. *)
Ltac explore s :=
  destruct s as [| [| [| ?]] s];
  [ vm_compute; reflexivity
  | explore_turn s
  | explore_turn s
  | rewrite run_cons, delivers_beyond by (vm_compute; reflexivity);
    vm_compute; reflexivity ]
with explore_turn s :=
  rewrite run_cons;
  lazymatch goal with
  | |- context [delivers ?f ?n ?k ?w] =>
      let b := eval vm_compute in (delivers f n k w) in
      replace (delivers f n k w) with b by (vm_compute; reflexivity);
      lazymatch b with
      | true => cbv iota; explore s
      | false => vm_compute; reflexivity
      end
  end.

(** The classification reads the threshold of the page and the two texts;
    the flag [ignoreNumbers] of the page has no part in it. *)
Lemma changeType_without_ignoreNumbers
    (isMajorChange : string → string → JsValue → bool)
    (page : ref) (prevHtml scannedHtml : string) (w : World) (flag : JsValue) :
  (changeType isMajorChange page prevHtml scannedHtml
     (mkWorld (alter (Page.set_ignoreNumbers flag) page (heap w))
        (html w) (storage w) (pending w) (log w))).1
  = (changeType isMajorChange page prevHtml scannedHtml w).1.
Proof.
  unfold_M. cbn. rewrite list_lookup_total_alter.
  by case_decide.
Qed.

(** Whatever the measure, a difference it counts as at least 1 is a major
    change at threshold 1. *)
Lemma count_is_major_for_any_measure (measure : string → string → Z) :
  1 ≤ measure "Count: 5" "Count: 9" →
  answer (Fuzzy.isMajorChangeBy measure)
    (_getChangeType "Count: 5" "Count: 9" (JsNumber 1)) = MAJOR_CHANGE.
Proof.
  intros Hm.
  rewrite getChangeType_compare by discriminate. cbn [answer].
  assert (Hge : Fuzzy.isMajorChangeBy measure "Count: 5" "Count: 9" (JsNumber 1)
                = true) by (by apply isMajorChangeBy_ge).
  by rewrite Hge.
Qed.

(** C1, on the code: with [ignoreNumbers] set and threshold 1, a scan that
    reads "Count: 9" where the last one read "Count: 5" is classified as a
    major change and marks the page CHANGED; in whatever order the
    operations complete, no other change type is decided for the page. *)
Theorem ignoreNumbers_count_is_major :
  Page.ignoreNumbers (deref countWorld 0) = JsBool true ∧
  Page.changeThreshold (deref countWorld 0) = JsNumber 1 ∧
  snapshot countWorld 0 NEW = "Count: 5" ∧
  answer Fuzzy.isMajorChange (_getChangeType "Count: 5" "Count: 9" (JsNumber 1))
    = MAJOR_CHANGE ∧
  milestones (log countRun)
    = [EFetch 0 (JsString "http://example.org/counter"); EFulfilled;
       EChangeType 0 MAJOR_CHANGE] ∧
  Page.state (deref countRun 0) = JsString Page.stateEnum.CHANGED ∧
  (∀ schedule : list nat,
     forallb (λ change, bool_decide (change = MAJOR_CHANGE))
       (classifications 0
          (log (run Fuzzy.isMajorChange countNet schedule
                  (exec (scan [0%nat]) countWorld)))) = true).
Proof.
  split_run.
  intros schedule. explore schedule.
Qed.

(** What the [catch] reaction leaves behind: the two error fields on the
    Page object and a console line; no store is written. *)
Lemma scanPage_catch_exec page error w :
  exec (_scanPage_catch page error) w
  = mkWorld
      (alter (Page.set_errorMessage error) page
         (alter (Page.set_error (JsBool true)) page (heap w)))
      (html w) (storage w) (pending w)
      (log w ++ [EConsoleLog ("Could not scan " ++ dquote
                              ++ toStr (Page.title (deref w page))
                              ++ dquote ++ ": " ++ toStr error)]).
Proof. reflexivity. Qed.

(** The next link of the chain starts the next fetch, or fulfils the
    promise of [scan]; it leaves the pages and the stores alone. *)
Lemma chain_exec rest w :
  exec (chain rest) w
  = match rest with
    | [] => mkWorld (heap w) (html w) (storage w) (pending w)
              (log w ++ [EFulfilled])
    | next :: rest' =>
        mkWorld (heap w) (html w) (storage w)
          (pending w ++ [PFetch next (Page.url (deref w next)) rest'])
          (log w ++ [EFetch next (Page.url (deref w next))])
    end.
Proof. by destruct rest. Qed.

(** A fetch that fails, by a transport error or by a response that is not
    ok: the page gets [error = true] and the reason as [errorMessage], its
    state and every other page are untouched, no snapshot is written and no
    record is saved (the record of the failed page does not reach the object
    store), and the chain goes on with the next page. *)
Lemma fetch_failure
    (isMajorChange : string → string → JsValue → bool)
    (net : JsValue → FetchResult)
    (page : ref) (url : JsValue) (rest : list ref) (w : World) (reason : JsValue) :
  (page < length (heap w))%nat →
  (net url = NetworkError reason ∨
   ∃ status statusText text,
     net url = Response false status statusText text ∧
     reason = checkStatus_reason status statusText) →
  Page.error (deref (exec (resume isMajorChange net (PFetch page url rest)) w) page)
    = JsBool true ∧
  Page.errorMessage
      (deref (exec (resume isMajorChange net (PFetch page url rest)) w) page)
    = reason ∧
  Page.state (deref (exec (resume isMajorChange net (PFetch page url rest)) w) page)
    = Page.state (deref w page) ∧
  (∀ other, other ≠ page →
     heap (exec (resume isMajorChange net (PFetch page url rest)) w) !! other
     = heap w !! other) ∧
  html (exec (resume isMajorChange net (PFetch page url rest)) w) = html w ∧
  htmlWrites (log (exec (resume isMajorChange net (PFetch page url rest)) w))
    = htmlWrites (log w) ∧
  storage (exec (resume isMajorChange net (PFetch page url rest)) w) = storage w ∧
  savedKeys (log (exec (resume isMajorChange net (PFetch page url rest)) w))
    = savedKeys (log w) ∧
  pending (exec (resume isMajorChange net (PFetch page url rest)) w)
    = match rest with
      | [] => pending w
      | next :: rest' =>
          (pending w
           ++ [PFetch next
                 (Page.url
                    (deref (exec (resume isMajorChange net (PFetch page url rest)) w)
                       next))
                 rest'])%list
      end.
Proof.
  intros Hin Hfail.
  assert (Hw' : exec (resume isMajorChange net (PFetch page url rest)) w
                = exec (chain rest) (exec (_scanPage_catch page reason) w)).
  { cbn [resume].
    destruct Hfail as [-> | (status & statusText & text & -> & ->)];
      unfold exec, mbind, M_bind;
      by destruct (_scanPage_catch page _ w) as [[] w1]. }
  rewrite Hw', chain_exec, scanPage_catch_exec.
  unfold htmlWrites, savedKeys, deref.
  destruct rest as [| next rest']; world_fields;
    rewrite !flat_map_app; cbn [flat_map]; rewrite !app_nil_r;
    read_altered; repeat split; try done.
  all: intros other Hne; by rewrite !list_lookup_alter_ne.
Qed.

(** C2, on the code: a page whose fetch answers 404, followed by a page
    that answers.  The failed page has [error] and [errorMessage] set, its
    state and its snapshots are as before, and the scan goes on to classify
    and save the second page; but the record of the failed page never
    reaches the object store, in whatever order the operations complete. *)
Theorem failed_page_is_not_saved :
  pending failRun = [] ∧
  Page.error (deref failRun 0) = JsBool true ∧
  Page.errorMessage (deref failRun 0) = JsString "[404] Not Found" ∧
  Page.state (deref failRun 0) = Page.state (deref failWorld 0) ∧
  snapshot failRun 0 OLD = snapshot failWorld 0 OLD ∧
  snapshot failRun 0 NEW = snapshot failWorld 0 NEW ∧
  htmlWrites (log failRun)
    = [(JsString "42", OLD, "Count: 5"); (JsString "42", NEW, "Count: 9")] ∧
  milestones (log failRun)
    = [EFetch 0 (JsString "http://example.org/gone");
       EFetch 1 (JsString "http://example.org/counter"); EFulfilled;
       EChangeType 1 MAJOR_CHANGE] ∧
  Page.state (deref failRun 1) = JsString Page.stateEnum.CHANGED ∧
  savedKeys (log failRun) = [Page._KEY (JsString "42")] ∧
  persisted failRun (JsString "42") "state"
    = Some (JsString Page.stateEnum.CHANGED) ∧
  persisted failRun (JsString "44") "error" = None ∧
  (∀ schedule : list nat,
     storage (run Fuzzy.isMajorChange siteNet schedule
                (exec (scan [0; 1]%nat) failWorld))
       !! Page._KEY (JsString "44") = None).
Proof.
  split_run.
  intros schedule. explore schedule.
Qed.

(** *** The order of the fetches *)

Lemma fetched_app l1 l2 : fetched (l1 ++ l2) = (fetched l1 ++ fetched l2)%list.
Proof. apply flat_map_app. Qed.

Lemma fulfilled_app l1 l2 : fulfilled (l1 ++ l2) = (fulfilled l1 + fulfilled l2)%nat.
Proof. unfold fulfilled. by rewrite List.filter_app, length_app. Qed.

Lemma fetchOps_app l1 l2 : fetchOps (l1 ++ l2) = (fetchOps l1 ++ fetchOps l2)%list.
Proof. apply flat_map_app. Qed.

Lemma fetchOps_delete ops k op :
  ops !! k = Some op →
  ∃ l1 l2, fetchOps ops = (l1 ++ fetchOf op ++ l2)%list ∧
           fetchOps (delete k ops) = (l1 ++ l2)%list.
Proof.
  intros Hk. exists (fetchOps (take k ops)), (fetchOps (drop (S k) ops)).
  rewrite <- (take_drop_middle ops k op Hk) at 1.
  rewrite fetchOps_app. cbn [fetchOps flat_map]. fold (fetchOps (drop (S k) ops)).
  split; [done |].
  rewrite <- (take_drop_middle ops k op Hk) at 1.
  assert (Hlen : length (take k ops) = k).
  { apply length_take_le. apply lookup_lt_Some in Hk. lia. }
  rewrite <- Hlen at 1. rewrite delete_middle. apply fetchOps_app.
Qed.

Lemma chain_Chained pageList before rest w :
  pageList = (before ++ rest)%list →
  fetchOps (pending w) = [] →
  fetched (log w) = before →
  fulfilled (log w) = 0%nat →
  Chained pageList (exec (chain rest) w).
Proof.
  intros -> Hops Hlog Hful. rewrite chain_exec. unfold Chained.
  destruct rest as [| next rest']; world_fields.
  - rewrite Hops, fetched_app, fulfilled_app, Hlog, Hful. cbn.
    by rewrite app_nil_r.
  - rewrite fetchOps_app, Hops, fetched_app, fulfilled_app, Hlog, Hful. cbn.
    exists before. done.
Qed.

(** [scan] starts the first fetch, or fulfils at once on an empty list. *)
Lemma scan_Chained pageList w :
  fetchOps (pending w) = [] → fetched (log w) = [] → fulfilled (log w) = 0%nat →
  Chained pageList (exec (scan pageList) w).
Proof. intros. by apply (chain_Chained pageList [] pageList). Qed.

(** The events of a change applied start no fetch and fulfil nothing. *)
Lemma applyChange_quiet change page prevHtml scannedHtml w :
  fetched (log (exec (applyChange change page prevHtml scannedHtml) w))
    = fetched (log w) ∧
  fulfilled (log (exec (applyChange change page prevHtml scannedHtml) w))
    = fulfilled (log w).
Proof.
  assert (Hlog : ∃ later,
    log (exec (applyChange change page prevHtml scannedHtml) w)
      = (log w ++ later)%list ∧ fetched later = [] ∧ fulfilled later = 0%nat).
  { unfold_M. destruct change; cbn; destruct (looseEqWord _ _); cbn;
      rewrite <- ?app_assoc; eexists; (split; [reflexivity | done]). }
  destruct Hlog as (later & -> & Hf & Hu).
  rewrite fetched_app, fulfilled_app, Hf, Hu, app_nil_r. split; [done | lia].
Qed.

Lemma updatePageState_frame isMajorChange page prevHtml scannedHtml w :
  pending (exec (_updatePageState isMajorChange page prevHtml scannedHtml) w)
    = pending w ∧
  fetched (log (exec (_updatePageState isMajorChange page prevHtml scannedHtml) w))
    = fetched (log w) ∧
  fulfilled (log (exec (_updatePageState isMajorChange page prevHtml scannedHtml) w))
    = fulfilled (log w).
Proof.
  rewrite updatePageState_exec.
  set (change := answer _ _). clearbody change.
  rewrite applyChange_pending.
  destruct (applyChange_quiet change page prevHtml scannedHtml
              (mkWorld (heap w) (html w) (storage w) (pending w)
                 (log w ++ [EChangeType page change]))) as [-> ->].
  world_fields. rewrite fetched_app, fulfilled_app. cbn.
  rewrite app_nil_r. repeat split; lia.
Qed.

(** Every turn keeps the chain: at most one fetch is in flight, the pages
    fetched so far are an initial part of the list, in its order, and the
    promise of [scan] fulfils once, after the last of them. *)
Lemma deliver_Chained isMajorChange net pageList k w w' :
  Chained pageList w →
  deliver isMajorChange net k w = Some w' →
  Chained pageList w'.
Proof.
  unfold deliver. intros Hinv Hdel.
  destruct (pending w !! k) as [op |] eqn:Hk; [| done].
  injection Hdel as <-.
  destruct (fetchOps_delete _ _ _ Hk) as (l1 & l2 & Hall & Hdelete).
  set (w0 := mkWorld _ _ _ (delete k (pending w)) _).
  assert (Hl0 : log w0 = log w) by done.
  assert (Hp0 : fetchOps (pending w0) = (l1 ++ l2)%list) by done.
  clearbody w0. clear Hdelete Hk.
  unfold Chained in Hinv. rewrite Hall in Hinv. rewrite <- Hl0 in Hinv.
  clear Hl0 Hall.
  destruct op as [page url rest | page text rest | page prevHtml scannedHtml].
  - (* the fetch settles *)
    cbn [fetchOf] in Hinv.
    destruct l1 as [| x l1]; [| by destruct x, l1].
    destruct l2 as [| y l2]; [| done].
    destruct Hinv as (before & -> & Hlog & Hful). cbn [app] in Hp0.
    assert (Hfail : ∀ reason,
      Chained (before ++ page :: rest)
        (exec (_scanPage_catch page reason;; chain rest) w0)).
    { intros reason. rewrite exec_then.
      apply (chain_Chained _ (before ++ [page]) rest).
      - by rewrite <- app_assoc.
      - by rewrite scanPage_catch_exec.
      - rewrite scanPage_catch_exec. world_fields.
        rewrite fetched_app, Hlog. cbn. by rewrite app_nil_r.
      - rewrite scanPage_catch_exec. world_fields.
        rewrite fulfilled_app, Hful. done. }
    cbn [resume]. destruct (net url) as [reason | ok status statusText text];
      [apply Hfail |].
    destruct ok; [| apply Hfail].
    unfold Chained, exec, suspend, modify. cbn [snd]. world_fields.
    rewrite fetchOps_app, Hp0. cbn.
    exists before. done.
  - (* the text arrives *)
    cbn [fetchOf] in Hinv.
    destruct l1 as [| x l1]; [| by destruct x, l1].
    destruct l2 as [| y l2]; [| done].
    destruct Hinv as (before & -> & Hlog & Hful). cbn [app] in Hp0.
    cbn [resume]. rewrite exec_then.
    apply (chain_Chained _ (before ++ [page]) rest).
    + by rewrite <- app_assoc.
    + rewrite processHtml_exec. world_fields.
      by rewrite fetchOps_app, Hp0.
    + rewrite processHtml_exec. world_fields.
      rewrite fetched_app, Hlog. cbn. by rewrite app_nil_r.
    + rewrite processHtml_exec. world_fields.
      rewrite fulfilled_app, Hful. done.
  - (* the load arrives *)
    cbn [fetchOf app] in Hinv. cbn [resume].
    destruct (updatePageState_frame isMajorChange page prevHtml scannedHtml w0)
      as (Hp & Hf & Hu).
    unfold Chained. by rewrite Hp, Hf, Hu, Hp0.
Qed.

(** The fetches of a scan, under any schedule: one at a time, in list
    order. *)
Lemma run_Chained isMajorChange net pageList schedule w :
  Chained pageList w →
  Chained pageList (run isMajorChange net schedule w).
Proof.
  revert w. induction schedule as [| k schedule IH]; intros w Hinv; [done |].
  cbn [run]. destruct (deliver isMajorChange net k w) as [w' |] eqn:Hd; [| done].
  apply IH. by apply (deliver_Chained isMajorChange net pageList k w).
Qed.

Lemma Chained_prefix pageList w :
  Chained pageList w → fetched (log w) `prefix_of` pageList.
Proof.
  unfold Chained.
  destruct (fetchOps (pending w)) as [| [page rest] [| y l]]; [| | done].
  - intros [-> _]. done.
  - intros (before & -> & -> & _). exists rest. by rewrite <- app_assoc.
Qed.

(** In every run of [scan], whatever the network answers and in whatever
    order the operations complete, the pages whose fetch has started are an
    initial part of [pageList], in its order, and at most one fetch is in
    flight. *)
Lemma scan_fetches_in_list_order isMajorChange net pageList schedule w :
  pending w = [] → log w = [] →
  fetched (log (run isMajorChange net schedule (exec (scan pageList) w)))
    `prefix_of` pageList ∧
  (length (fetchOps (pending (run isMajorChange net schedule
                                (exec (scan pageList) w)))) ≤ 1)%nat.
Proof.
  intros Hp Hl.
  assert (Hinv : Chained pageList
                   (run isMajorChange net schedule (exec (scan pageList) w))).
  { apply run_Chained, scan_Chained; by rewrite ?Hp, ?Hl. }
  split; [by apply Chained_prefix |].
  unfold Chained in Hinv.
  destruct (fetchOps (pending _)) as [| [page rest] [| y l]]; cbn; [lia | lia | done].
Qed.

(** When the text of page N arrives and a page follows in the list, the
    same turn asks for the NEW snapshot of page N and starts the fetch of
    the next page: the classification of page N is still waiting for the
    load. *)
Lemma next_fetch_starts_with_load
    (isMajorChange : string → string → JsValue → bool)
    (net : JsValue → FetchResult)
    (page : ref) (text : string) (next : ref) (rest : list ref) (w : World) :
  log (exec (resume isMajorChange net (PText page text (next :: rest))) w)
    = (log w ++ [ELoadHtml (Page.id (deref w page)) NEW;
                 EFetch next (Page.url (deref w next))])%list ∧
  pending (exec (resume isMajorChange net (PText page text (next :: rest))) w)
    = (pending w ++ [PLoadHtml page (snapshot w page NEW) text;
                     PFetch next (Page.url (deref w next)) rest])%list.
Proof.
  cbn [resume]. rewrite exec_then, processHtml_exec, chain_exec.
  world_fields. by rewrite <- !app_assoc.
Qed.

(** After the last page the promise of [scan] fulfils in the turn in which
    the text arrives, with the classification of that page still waiting. *)
Lemma fulfilled_with_load_waiting
    (isMajorChange : string → string → JsValue → bool)
    (net : JsValue → FetchResult) (page : ref) (text : string) (w : World) :
  log (exec (resume isMajorChange net (PText page text [])) w)
    = (log w ++ [ELoadHtml (Page.id (deref w page)) NEW; EFulfilled])%list ∧
  pending (exec (resume isMajorChange net (PText page text [])) w)
    = (pending w ++ [PLoadHtml page (snapshot w page NEW) text])%list.
Proof.
  cbn [resume]. rewrite exec_then, processHtml_exec, chain_exec.
  world_fields. by rewrite <- !app_assoc.
Qed.

(** C3, on the code: two pages that both answer.  The fetch of the second
    page starts before the change type of the first is decided, and the
    promise of [scan] fulfils before the change type of the second is; in
    whatever order the operations complete, the change type of the first
    page is never decided before the fetch of the second has started. *)
Theorem next_fetch_precedes_classification :
  pending okRun = [] ∧
  milestones (log okRun)
    = [EFetch 0 (JsString "http://example.org/counter");
       EFetch 1 (JsString "http://example.org/news");
       EChangeType 0 MAJOR_CHANGE;
       EFulfilled;
       EChangeType 1 NEW_CONTENT] ∧
  (∀ schedule : list nat,
     classifiedFirst 0 1
       (log (run Fuzzy.isMajorChange siteNet schedule
               (exec (scan [0; 1]%nat) okWorld))) = false).
Proof.
  split_run.
  intros schedule. explore schedule.
Qed.

(** ** The keys of the Page record *)

Lemma dropPrefix_app (prefix s : string) :
  PageIO.dropPrefix prefix (prefix ++ s) = Some s.
Proof.
  induction prefix as [| a prefix IH]; [done |].
  change (String a prefix ++ s) with (String a (prefix ++ s)).
  cbn [PageIO.dropPrefix]. by rewrite Ascii.eqb_refl.
Qed.

Lemma dropPrefix_Some (prefix s rest : string) :
  PageIO.dropPrefix prefix s = Some rest → s = prefix ++ rest.
Proof.
  revert s. induction prefix as [| a prefix IH]; intros s; cbn.
  - by intros [= ->].
  - destruct s as [| b s]; [done |].
    destruct (Ascii.eqb_spec a b) as [<- | _]; [| done].
    intros H. rewrite (IH s H). reflexivity.
Qed.

(** X1: [idFromKey] answers an id exactly on the keys [_KEY] makes from a
    string id with no line terminator, and answers that id. *)
Theorem idFromKey_inverts_KEY (key id : string) :
  PageIO.idFromKey key = Some id ↔
  key = Page._KEY (JsString id) ∧ PageIO.hasLineTerminator id = false.
Proof.
  unfold PageIO.idFromKey, Page._KEY. cbn [toStr]. split.
  - destruct (PageIO.dropPrefix "page:" key) as [rest |] eqn:Hdrop; [| done].
    apply dropPrefix_Some in Hdrop.
    destruct (PageIO.hasLineTerminator rest) eqn:Hline; [done |].
    by intros [= <-].
  - intros [-> Hline]. by rewrite dropPrefix_app, Hline.
Qed.

(** X2: the key of an id that holds a line terminator is not recognised:
    [idFromKey] answers null on it and [isPageKey] false. *)
Theorem multiline_id_is_no_page_key (id : string) :
  PageIO.hasLineTerminator id = true →
  PageIO.idFromKey (Page._KEY (JsString id)) = None ∧
  PageIO.isPageKey (Page._KEY (JsString id)) = false.
Proof.
  intros Hline. unfold PageIO.isPageKey, PageIO.idFromKey, Page._KEY.
  cbn [toStr]. by rewrite dropPrefix_app, Hline.
Qed.

Lemma multiline_id_is_no_page_key_witness :
  PageIO.hasLineTerminator twoLineId = true ∧
  PageIO.idFromKey (Page._KEY (JsString twoLineId)) = None ∧
  PageIO.isPageKey (Page._KEY (JsString twoLineId)) = false.
Proof.
  split; [reflexivity |].
  apply (multiline_id_is_no_page_key twoLineId). reflexivity.
Defined.

(** ** The constructor and the serialised object *)

Lemma param_not_undefined (data : Obj) (k : string) :
  getProp Page.DEFAULTS k ≠ JsUndefined → Page.param data k ≠ JsUndefined.
Proof.
  intros Hk. unfold Page.param.
  by destruct (getProp data k) eqn:Hv.
Qed.

Lemma toObject_lookup (p : Page.t) :
  Page._toObject p !! "title" = Some (Page.title p) ∧
  Page._toObject p !! "url" = Some (Page.url p) ∧
  Page._toObject p !! "scanRateMinutes" = Some (Page.scanRateMinutes p) ∧
  Page._toObject p !! "changeThreshold" = Some (Page.changeThreshold p) ∧
  Page._toObject p !! "ignoreNumbers" = Some (Page.ignoreNumbers p) ∧
  Page._toObject p !! "encoding" = Some (Page.encoding p) ∧
  Page._toObject p !! "highlightChanges" = Some (Page.highlightChanges p) ∧
  Page._toObject p !! "highlightColour" = Some (Page.highlightColour p) ∧
  Page._toObject p !! "markChanges" = Some (Page.markChanges p) ∧
  Page._toObject p !! "doPost" = Some (Page.doPost p) ∧
  Page._toObject p !! "postParams" = Some (Page.postParams p) ∧
  Page._toObject p !! "state" = Some (Page.state p) ∧
  Page._toObject p !! "error" = Some (Page.error p) ∧
  Page._toObject p !! "errorMessage" = Some (Page.errorMessage p) ∧
  Page._toObject p !! "lastAutoscanTime" = Some (Page.lastAutoscanTime p) ∧
  Page._toObject p !! "oldScanTime" = Some (Page.oldScanTime p) ∧
  Page._toObject p !! "newScanTime" = Some (Page.newScanTime p).
Proof. repeat split; vm_compute; reflexivity. Qed.

(** A Page with every serialised field defined is rebuilt from its object. *)
Lemma rebuild_defined (p : Page.t) :
  Page.allDefined p → Page.new (Page.id p) (Page._toObject p) = p.
Proof.
  destruct (toObject_lookup p)
    as (H1 & H2 & H3 & H4 & H5 & H6 & H7 & H8 & H9 & H10 & H11 & H12 & H13
        & H14 & H15 & H16 & H17).
  unfold Page.allDefined. intros Hall.
  repeat match goal with
         | H : Forall _ (_ :: _) |- _ =>
             apply Forall_cons in H; destruct H as [? H]
         end.
  destruct p. unfold Page.new. f_equal; by apply param_defined.
Qed.

Lemma new_allDefined (id : JsValue) (data : Obj) :
  Page.allDefined (Page.new id data).
Proof.
  unfold Page.allDefined, Page.new.
  cbn [Page.title Page.url Page.scanRateMinutes
    Page.changeThreshold Page.ignoreNumbers Page.encoding Page.highlightChanges
    Page.highlightColour Page.markChanges Page.doPost Page.postParams Page.state
    Page.error Page.errorMessage Page.lastAutoscanTime Page.oldScanTime
    Page.newScanTime].
  repeat (constructor;
          [apply param_not_undefined; vm_compute; discriminate |]).
  constructor.
Qed.

(** X3: whatever object the constructor is given, the Page it builds has
    every serialised field defined, and serialising it and building again
    gives the same Page. *)
Theorem constructed_page_roundtrip (id : JsValue) (data : Obj) :
  Page.allDefined (Page.new id data) ∧
  Page.new id (Page._toObject (Page.new id data)) = Page.new id data.
Proof.
  split; [apply new_allDefined |].
  apply (rebuild_defined (Page.new id data)), new_allDefined.
Qed.

(** X4: a Page built from the empty object serialises to [Page.DEFAULTS]. *)
Theorem default_page_serialises_to_DEFAULTS (id : JsValue) :
  Page._toObject (Page.new id ∅) = Page.DEFAULTS.
Proof.
  unfold Page._toObject, Page.DEFAULTS, Page.new.
  cbn [Page.title Page.url Page.scanRateMinutes
    Page.changeThreshold Page.ignoreNumbers Page.encoding Page.highlightChanges
    Page.highlightColour Page.markChanges Page.doPost Page.postParams Page.state
    Page.error Page.errorMessage Page.lastAutoscanTime Page.oldScanTime
    Page.newScanTime].
  repeat f_equal; vm_compute; reflexivity.
Qed.

Lemma toObject_same (p q : Page.t) :
  Page.id p = Page.id q → Page._toObject p = Page._toObject q → p = q.
Proof.
  intros Hid Hobj.
  destruct (toObject_lookup p)
    as (P1 & P2 & P3 & P4 & P5 & P6 & P7 & P8 & P9 & P10 & P11 & P12 & P13
        & P14 & P15 & P16 & P17).
  destruct (toObject_lookup q)
    as (Q1 & Q2 & Q3 & Q4 & Q5 & Q6 & Q7 & Q8 & Q9 & Q10 & Q11 & Q12 & Q13
        & Q14 & Q15 & Q16 & Q17).
  rewrite Hobj in P1, P2, P3, P4, P5, P6, P7, P8, P9, P10, P11, P12, P13,
    P14, P15, P16, P17.
  clear Hobj.
  rewrite P1 in Q1; rewrite P2 in Q2; rewrite P3 in Q3; rewrite P4 in Q4;
  rewrite P5 in Q5; rewrite P6 in Q6; rewrite P7 in Q7; rewrite P8 in Q8;
  rewrite P9 in Q9; rewrite P10 in Q10; rewrite P11 in Q11;
  rewrite P12 in Q12; rewrite P13 in Q13; rewrite P14 in Q14;
  rewrite P15 in Q15; rewrite P16 in Q16; rewrite P17 in Q17.
  clear P1 P2 P3 P4 P5 P6 P7 P8 P9 P10 P11 P12 P13 P14 P15 P16 P17.
  destruct p, q.
  cbn [Page.id Page.title Page.url Page.scanRateMinutes
    Page.changeThreshold Page.ignoreNumbers Page.encoding Page.highlightChanges
    Page.highlightColour Page.markChanges Page.doPost Page.postParams Page.state
    Page.error Page.errorMessage Page.lastAutoscanTime Page.oldScanTime
    Page.newScanTime] in *.
  injection Q1 as ->; injection Q2 as ->; injection Q3 as ->;
  injection Q4 as ->; injection Q5 as ->; injection Q6 as ->;
  injection Q7 as ->; injection Q8 as ->; injection Q9 as ->;
  injection Q10 as ->; injection Q11 as ->; injection Q12 as ->;
  injection Q13 as ->; injection Q14 as ->; injection Q15 as ->;
  injection Q16 as ->; injection Q17 as ->.
  by rewrite Hid.
Qed.

(** X5: the serialised object keeps every field but the id: two Pages are
    the same exactly when they have the same id and the same object. *)
Theorem toObject_injective (p q : Page.t) :
  p = q ↔ Page.id p = Page.id q ∧ Page._toObject p = Page._toObject q.
Proof.
  split; [by intros -> | intros [Hid Hobj]; by apply toObject_same].
Qed.

(** ** Loading, saving and deleting the record *)

Lemma KEY_string_inj (a b : string) :
  Page._KEY (JsString a) = Page._KEY (JsString b) → a = b.
Proof.
  unfold Page._KEY. cbn [toStr]. intros H.
  pose proof (dropPrefix_app "page:" a) as Ha. rewrite H in Ha.
  rewrite dropPrefix_app in Ha. by injection Ha.
Qed.

(** X6: a Page whose serialised fields are all defined, once saved, is
    loaded back as it was, by its id. *)
Theorem load_after_save (p : Page.t) (st : PageIO.ObjectStore) :
  Page.allDefined p →
  (PageIO.load (Page.id p) (PageIO.save p st PageIO.Works).1 PageIO.Works).1 = p.
Proof.
  intros Hall. cbn [PageIO.load PageIO.save fst].
  rewrite lookup_insert_eq. cbn [default]. by apply rebuild_defined.
Qed.

Lemma load_after_save_witness :
  (PageIO.load (Page.id countPage)
     (PageIO.save countPage exampleStore PageIO.Works).1 PageIO.Works).1
  = countPage.
Proof.
  apply (load_after_save countPage exampleStore).
  unfold Page.allDefined. vm_compute.
  repeat (constructor; [discriminate |]). constructor.
Defined.

(** X7: saving or deleting the Page of one string id leaves what [load]
    gives for every other string id. *)
Theorem other_id_undisturbed (p : Page.t) (a b : string)
    (st : PageIO.ObjectStore) (outcome : PageIO.Outcome) :
  Page.id p = JsString a → a ≠ b →
  PageIO.load (JsString b) (PageIO.save p st outcome).1 PageIO.Works
    = PageIO.load (JsString b) st PageIO.Works ∧
  PageIO.load (JsString b) (PageIO.delete p st outcome).1 PageIO.Works
    = PageIO.load (JsString b) st PageIO.Works.
Proof.
  intros Hid Hne.
  assert (Hkey : Page._KEY (Page.id p) ≠ Page._KEY (JsString b)).
  { rewrite Hid. intros H. by apply Hne, KEY_string_inj. }
  destruct outcome; cbn [PageIO.load PageIO.save PageIO.delete fst];
    [| done].
  by rewrite lookup_insert_ne, lookup_delete_ne.
Qed.

Lemma other_id_undisturbed_witness :
  PageIO.load (JsString "43")
    (PageIO.save countPage exampleStore PageIO.Works).1 PageIO.Works
  = PageIO.load (JsString "43") exampleStore PageIO.Works.
Proof.
  apply (other_id_undisturbed countPage "42" "43" exampleStore PageIO.Works).
  - reflexivity.
  - discriminate.
Defined.

(** X8: [load] always gives a Page with the id asked for; for an id with no
    record, for a record just deleted and when the storage fails, it is the
    Page of the defaults, with state NO_CHANGE. *)
Theorem load_falls_back_to_defaults (id : JsValue) (p : Page.t)
    (st : PageIO.ObjectStore) (outcome : PageIO.Outcome) (error : JsValue) :
  Page.id (PageIO.load id st outcome).1 = id ∧
  (st !! Page._KEY id = None →
     (PageIO.load id st PageIO.Works).1 = Page.new id ∅) ∧
  (PageIO.load (Page.id p) (PageIO.delete p st PageIO.Works).1 PageIO.Works).1
    = Page.new (Page.id p) ∅ ∧
  (PageIO.load id st (PageIO.Fails error)).1 = Page.new id ∅ ∧
  Page.state (Page.new id ∅) = JsString Page.stateEnum.NO_CHANGE.
Proof.
  split; [by destruct outcome |].
  split; [intros Hnone; cbn [PageIO.load fst]; by rewrite Hnone |].
  split; [cbn [PageIO.load PageIO.delete fst]; by rewrite lookup_delete_eq |].
  split; reflexivity.
Qed.

Lemma load_falls_back_to_defaults_witness :
  (PageIO.load (JsString "42") exampleStore PageIO.Works).1
  = Page.new (JsString "42") ∅.
Proof.
  apply (proj1 (proj2 (load_falls_back_to_defaults (JsString "42") countPage
                         exampleStore PageIO.Works JsNull))).
  reflexivity.
Defined.

(** ** What a run of the scan touches, and how long it takes *)

Lemma config_alter (set : JsValue → Page.t → Page.t) (v : JsValue)
    (page : ref) (l : list Page.t) :
  (∀ p, config (set v p) = config p) →
  config <$> alter (set v) page l = config <$> l.
Proof.
  intros Hset.
  rewrite (list_fmap_alter config (set v) (λ p, p)); [| by apply Forall_true].
  by apply list_alter_id.
Qed.

Lemma workLeft_app l1 l2 : workLeft (l1 ++ l2) = (workLeft l1 + workLeft l2)%nat.
Proof. apply sum_list_with_app. Qed.

(** What [applyChange] does to the Page objects. *)
Lemma applyChange_heap change page prevHtml scannedHtml w :
  config <$> heap (exec (applyChange change page prevHtml scannedHtml) w)
    = config <$> heap w.
Proof.
  unfold_M. destruct change; cbn; destruct (looseEqWord _ _); cbn;
    by rewrite !config_alter.
Qed.

(** The effect of one reaction: the operations it leaves waiting concern
    pages the completed one concerned and need fewer turns; the Page
    objects keep their configuration; only the page of the operation is
    written. *)
Lemma resume_effect isMajorChange net op w :
  ∃ added,
    pending (exec (resume isMajorChange net op) w) = (pending w ++ added)%list ∧
    (∀ op' q, op' ∈ added → q ∈ pagesOf op' → q ∈ pagesOf op) ∧
    (workLeft added < turnsLeft op)%nat ∧
    config <$> heap (exec (resume isMajorChange net op) w) = config <$> heap w ∧
    (∀ i, i ∉ pagesOf op →
       heap (exec (resume isMajorChange net op) w) !! i = heap w !! i).
Proof.
  assert (Hchain : ∀ page rest w0,
    ∃ added,
      pending (exec (chain rest) w0) = (pending w0 ++ added)%list ∧
      (∀ op' q, op' ∈ added → q ∈ pagesOf op' → q ∈ page :: rest) ∧
      (workLeft added ≤ 3 * length rest)%nat ∧
      heap (exec (chain rest) w0) = heap w0).
  { intros page rest w0. rewrite chain_exec.
    destruct rest as [| next rest']; world_fields.
    - exists []. rewrite app_nil_r. repeat split; [| cbn; lia].
      intros op' q Hop. by apply elem_of_nil in Hop.
    - eexists [_]. repeat split; [| cbn; lia].
      intros op' q ->%list_elem_of_singleton Hq.
      apply elem_of_cons. by right. }
  assert (Hfail : ∀ page rest reason,
    ∃ added,
      pending (exec (_scanPage_catch page reason;; chain rest) w)
        = (pending w ++ added)%list ∧
      (∀ op' q, op' ∈ added → q ∈ pagesOf op' → q ∈ page :: rest) ∧
      (workLeft added ≤ 3 * length rest)%nat ∧
      config <$> heap (exec (_scanPage_catch page reason;; chain rest) w)
        = config <$> heap w ∧
      (∀ i, i ∉ page :: rest →
         heap (exec (_scanPage_catch page reason;; chain rest) w) !! i
         = heap w !! i)).
  { intros page rest reason. rewrite exec_then.
    destruct (Hchain page rest (exec (_scanPage_catch page reason) w))
      as (added & -> & Hpages & Hwork & ->).
    rewrite scanPage_catch_exec. world_fields.
    exists added. repeat split; try done.
    - by rewrite !config_alter.
    - intros i Hi. rewrite !list_lookup_alter_ne; [done | set_solver ..]. }
  destruct op as [page url rest | page text rest | page prevHtml scannedHtml];
    cbn [resume pagesOf turnsLeft].
  - destruct (net url) as [reason | [] status statusText text].
    + destruct (Hfail page rest reason) as (added & ? & ? & ? & ? & ?).
      exists added. repeat split; try done. lia.
    + exists [PText page text rest]. repeat split; try done.
      * intros op' q ->%list_elem_of_singleton Hq. done.
      * cbn. lia.
    + destruct (Hfail page rest (checkStatus_reason status statusText))
        as (added & ? & ? & ? & ? & ?).
      exists added. repeat split; try done. lia.
  - rewrite exec_then.
    destruct (Hchain page rest (exec (_processHtml page text) w))
      as (added & -> & Hpages & Hwork & ->).
    rewrite processHtml_exec. world_fields.
    exists (PLoadHtml page (snapshot w page NEW) text :: added).
    repeat split; try done.
    + by rewrite <- app_assoc.
    + intros op' q [-> | Hop]%elem_of_cons Hq; [| by eapply Hpages].
      apply list_elem_of_singleton in Hq as ->. apply elem_of_cons. by left.
    + cbn. unfold workLeft in Hwork. lia.
  - exists []. rewrite app_nil_r, updatePageState_exec.
    rewrite applyChange_pending, applyChange_heap. world_fields.
    repeat split; try done.
    + intros op' q Hop. by apply elem_of_nil in Hop.
    + cbn. lia.
    + intros i Hi. rewrite applyChange_other; [done | set_solver].
Qed.

(** One turn: the operation delivered leaves the list, what its reaction
    requests joins it. *)
Lemma deliver_effect isMajorChange net k w w' :
  deliver isMajorChange net k w = Some w' →
  ∃ op added,
    pending w !! k = Some op ∧
    pending w' = (delete k (pending w) ++ added)%list ∧
    (∀ op' q, op' ∈ added → q ∈ pagesOf op' → q ∈ pagesOf op) ∧
    (workLeft added < turnsLeft op)%nat ∧
    config <$> heap w' = config <$> heap w ∧
    (∀ i, i ∉ pagesOf op → heap w' !! i = heap w !! i).
Proof.
  unfold deliver. destruct (pending w !! k) as [op |] eqn:Hk; [| done].
  intros [= <-].
  destruct (resume_effect isMajorChange net op
              (mkWorld (heap w) (html w) (storage w) (delete k (pending w))
                 (log w)))
    as (added & Hp & Hpages & Hwork & Hconfig & Hother).
  exists op, added. by repeat split.
Qed.

Lemma workLeft_delete ops k op :
  ops !! k = Some op →
  (workLeft (delete k ops) + turnsLeft op = workLeft ops)%nat.
Proof.
  intros Hk. rewrite delete_take_drop.
  rewrite <- (take_drop_middle ops k op Hk) at 3.
  rewrite !workLeft_app. cbn. fold (workLeft (drop (S k) ops)). lia.
Qed.

(** Every turn uses up work. *)
Lemma deliver_workLeft isMajorChange net k w w' :
  deliver isMajorChange net k w = Some w' →
  (workLeft (pending w') < workLeft (pending w))%nat.
Proof.
  intros (op & added & Hk & -> & _ & Hwork & _)%deliver_effect.
  rewrite workLeft_app. pose proof (workLeft_delete _ _ _ Hk). lia.
Qed.

Lemma workLeft_zero ops : workLeft ops = 0%nat → ops = [].
Proof.
  destruct ops as [| op ops]; [done |].
  unfold workLeft. cbn [sum_list_with]. destruct op; cbn [turnsLeft]; intros; lia.
Qed.

Lemma run_fifo_quiescent isMajorChange net turns w :
  (workLeft (pending w) ≤ turns)%nat →
  pending (run isMajorChange net (fifo turns) w) = [].
Proof.
  revert w. induction turns as [| turns IH]; intros w Hwork.
  - cbn [fifo replicate run]. apply workLeft_zero. lia.
  - cbn [fifo replicate run].
    destruct (deliver isMajorChange net 0 w) as [w' |] eqn:Hd.
    + apply IH. apply deliver_workLeft in Hd. lia.
    + unfold deliver in Hd. by destruct (pending w) as [| op ops].
Qed.

(** X9: a scan finishes: completing the oldest operation first, after at
    most three turns for each page nothing is in flight, every page of the
    list has been fetched, in the order of the list, and the promise of
    [scan] has fulfilled once; this whatever the list, the network and the
    comparator. *)
Theorem scan_completes
    (isMajorChange : string → string → JsValue → bool)
    (net : JsValue → FetchResult) (pageList : list ref) (w : World) :
  pending w = [] → log w = [] →
  pending (run isMajorChange net (fifo (3 * length pageList))
             (exec (scan pageList) w)) = [] ∧
  fetched (log (run isMajorChange net (fifo (3 * length pageList))
                  (exec (scan pageList) w))) = pageList ∧
  fulfilled (log (run isMajorChange net (fifo (3 * length pageList))
                    (exec (scan pageList) w))) = 1%nat.
Proof.
  intros Hp Hl.
  assert (Hquiet : pending (run isMajorChange net (fifo (3 * length pageList))
                              (exec (scan pageList) w)) = []).
  { apply run_fifo_quiescent. unfold scan. rewrite chain_exec.
    destruct pageList as [| page rest]; world_fields; rewrite Hp; cbn; lia. }
  split; [exact Hquiet |].
  assert (Hinv : Chained pageList
                   (run isMajorChange net (fifo (3 * length pageList))
                      (exec (scan pageList) w))).
  { apply run_Chained, scan_Chained; by rewrite ?Hp, ?Hl. }
  unfold Chained in Hinv. by rewrite Hquiet in Hinv.
Qed.

Lemma scan_completes_witness :
  pending (run Fuzzy.isMajorChange siteNet (fifo (3 * 2))
             (exec (scan [0; 1]%nat) failWorld)) = [] ∧
  fetched (log (run Fuzzy.isMajorChange siteNet (fifo (3 * 2))
                  (exec (scan [0; 1]%nat) failWorld))) = [0; 1]%nat ∧
  fulfilled (log (run Fuzzy.isMajorChange siteNet (fifo (3 * 2))
                    (exec (scan [0; 1]%nat) failWorld))) = 1%nat.
Proof.
  apply (scan_completes Fuzzy.isMajorChange siteNet [0; 1]%nat failWorld);
    reflexivity.
Defined.

(** X10: in every run of [scan], whatever the network answers and in
    whatever order the operations complete: the pages whose fetch has
    started are an initial part of the list, in its order; at most one fetch
    is in flight; while one is, the promise of [scan] has not fulfilled; and
    once none is, every page has been fetched and the promise has fulfilled
    exactly once. *)
Theorem scan_is_sequential
    (isMajorChange : string → string → JsValue → bool)
    (net : JsValue → FetchResult) (pageList : list ref)
    (schedule : list nat) (w : World) :
  pending w = [] → log w = [] →
  fetched (log (run isMajorChange net schedule (exec (scan pageList) w)))
    `prefix_of` pageList ∧
  (length (fetchOps (pending (run isMajorChange net schedule
                                (exec (scan pageList) w)))) ≤ 1)%nat ∧
  (fetchOps (pending (run isMajorChange net schedule (exec (scan pageList) w)))
     ≠ [] →
   fulfilled (log (run isMajorChange net schedule (exec (scan pageList) w)))
     = 0%nat) ∧
  (fetchOps (pending (run isMajorChange net schedule (exec (scan pageList) w)))
     = [] →
   fetched (log (run isMajorChange net schedule (exec (scan pageList) w)))
     = pageList ∧
   fulfilled (log (run isMajorChange net schedule (exec (scan pageList) w)))
     = 1%nat).
Proof.
  intros Hp Hl.
  assert (Hinv : Chained pageList
                   (run isMajorChange net schedule (exec (scan pageList) w))).
  { apply run_Chained, scan_Chained; by rewrite ?Hp, ?Hl. }
  split; [by apply Chained_prefix |].
  unfold Chained in Hinv.
  destruct (fetchOps (pending _)) as [| [page rest] [| y l]]; [| | done].
  - split; [cbn; lia |]. split; done.
  - destruct Hinv as (before & _ & _ & Hful).
    split; [cbn; lia |]. split; done.
Qed.

Lemma scan_is_sequential_witness :
  fetched (log (run Fuzzy.isMajorChange siteNet [0; 1; 0]%nat
                  (exec (scan [0; 1]%nat) okWorld)))
    `prefix_of` [0; 1]%nat.
Proof.
  apply (scan_is_sequential Fuzzy.isMajorChange siteNet [0; 1]%nat
           [0; 1; 0]%nat okWorld); reflexivity.
Defined.

(** X11: whatever the list, the network and the order of completion, a run
    of the scan leaves the id and the configuration of every Page object as
    they were, the three times included: it writes [state], [error] and
    [errorMessage] and nothing else, and the number of objects stays. *)
Theorem scan_keeps_config
    (isMajorChange : string → string → JsValue → bool)
    (net : JsValue → FetchResult) (pageList : list ref)
    (schedule : list nat) (w : World) :
  config <$> heap (run isMajorChange net schedule (exec (scan pageList) w))
    = config <$> heap w.
Proof.
  assert (Hrun : ∀ w0, config <$> heap (run isMajorChange net schedule w0)
                       = config <$> heap w0).
  { induction schedule as [| k schedule IH]; intros w0; [done |].
    cbn [run]. destruct (deliver isMajorChange net k w0) as [w' |] eqn:Hd;
      [| done].
    rewrite IH.
    by apply deliver_effect in Hd as (op & added & _ & _ & _ & _ & Hc & _). }
  rewrite Hrun. unfold scan. by rewrite chain_exec; destruct pageList.
Qed.

Lemma deliver_Listed isMajorChange net pageList k w w' :
  Listed pageList w →
  deliver isMajorChange net k w = Some w' →
  Listed pageList w' ∧
  (∀ i, i ∉ pageList → heap w' !! i = heap w !! i).
Proof.
  intros Hinv (op & added & Hk & Hp & Hpages & _ & _ & Hother)%deliver_effect.
  assert (Hop : ∀ q, q ∈ pagesOf op → q ∈ pageList).
  { intros q. apply Hinv. by eapply list_elem_of_lookup_2. }
  split.
  - intros op' q. rewrite Hp, elem_of_app.
    intros [Hin%list_elem_of_delete_inv | Hin] Hq.
    + by eapply Hinv.
    + by eapply Hop, Hpages.
  - intros i Hi. apply Hother. intros Hq. by apply Hi, Hop.
Qed.

(** X12: a run of the scan leaves every Page object that is not in the
    list exactly as it was. *)
Theorem scan_touches_listed_pages_only
    (isMajorChange : string → string → JsValue → bool)
    (net : JsValue → FetchResult) (pageList : list ref)
    (schedule : list nat) (w : World) (other : ref) :
  pending w = [] → other ∉ pageList →
  heap (run isMajorChange net schedule (exec (scan pageList) w)) !! other
    = heap w !! other.
Proof.
  intros Hp Hother.
  assert (Hrun : ∀ w0, Listed pageList w0 →
            heap (run isMajorChange net schedule w0) !! other
            = heap w0 !! other).
  { induction schedule as [| k schedule IH]; intros w0 Hinv; [done |].
    cbn [run]. destruct (deliver isMajorChange net k w0) as [w' |] eqn:Hd;
      [| done].
    destruct (deliver_Listed _ _ _ _ _ _ Hinv Hd) as [Hinv' Hheap].
    rewrite (IH w' Hinv'). by apply Hheap. }
  rewrite Hrun.
  - unfold scan. by rewrite chain_exec; destruct pageList.
  - unfold scan, Listed. rewrite chain_exec.
    destruct pageList as [| page rest]; world_fields; rewrite Hp.
    + intros op q Hop. by apply elem_of_nil in Hop.
    + intros op q ->%list_elem_of_singleton Hq. exact Hq.
Qed.

Lemma scan_touches_listed_pages_only_witness :
  heap (run Fuzzy.isMajorChange siteNet (fifo 3) (exec (scan [1%nat]) okWorld))
    !! 0%nat
  = heap okWorld !! 0%nat.
Proof.
  apply (scan_touches_listed_pages_only Fuzzy.isMajorChange siteNet [1%nat]
           (fifo 3) okWorld 0).
  - reflexivity.
  - intros Hin. apply list_elem_of_singleton in Hin. discriminate.
Defined.

(** ** What a successful scan leaves behind *)

(** The record [applyChange] saves is the Page as it leaves it. *)
Lemma applyChange_storage change page prevHtml scannedHtml w :
  (page < length (heap w))%nat →
  storage (exec (applyChange change page prevHtml scannedHtml) w)
  = <[Page._KEY (Page.id (deref w page))
        := Page._toObject
             (deref (exec (applyChange change page prevHtml scannedHtml) w) page)]>
      (storage w).
Proof.
  intros Hin. unfold deref. unfold_M.
  destruct change; cbn; destruct (looseEqWord _ _) eqn:E; cbn;
    read_altered; done.
Qed.

Lemma updatePageState_decided isMajorChange page prevHtml scannedHtml w :
  ∃ w1,
    exec (_updatePageState isMajorChange page prevHtml scannedHtml) w
    = exec (applyChange (decided isMajorChange page prevHtml scannedHtml w)
              page prevHtml scannedHtml) w1 ∧
    heap w1 = heap w ∧ html w1 = html w ∧ storage w1 = storage w ∧
    pending w1 = pending w ∧ htmlWrites (log w1) = htmlWrites (log w).
Proof.
  eexists. split; [apply updatePageState_exec |]. world_fields.
  repeat split. rewrite htmlWrites_app. cbn. by rewrite app_nil_r.
Qed.

(** X13: after [_updatePageState] the state of the page is CHANGED or
    NO_CHANGE, whatever it was before, an error-like value included; it is
    CHANGED exactly when it was CHANGED before or the change is major. *)
Theorem successful_scan_state
    (isMajorChange : string → string → JsValue → bool)
    (page : ref) (prevHtml scannedHtml : string) (w : World) :
  (page < length (heap w))%nat →
  (Page.state
     (deref (exec (_updatePageState isMajorChange page prevHtml scannedHtml) w) page)
   = JsString Page.stateEnum.CHANGED ∨
   Page.state
     (deref (exec (_updatePageState isMajorChange page prevHtml scannedHtml) w) page)
   = JsString Page.stateEnum.NO_CHANGE) ∧
  (Page.state
     (deref (exec (_updatePageState isMajorChange page prevHtml scannedHtml) w) page)
   = JsString Page.stateEnum.CHANGED
   ↔ Page.state (deref w page) = JsString Page.stateEnum.CHANGED ∨
     decided isMajorChange page prevHtml scannedHtml w = MAJOR_CHANGE).
Proof.
  intros Hin.
  destruct (updatePageState_decided isMajorChange page prevHtml scannedHtml w)
    as (w1 & -> & Hheap & _).
  assert (Hin1 : (page < length (heap w1))%nat) by (by rewrite Hheap).
  rewrite (applyChange_state _ page prevHtml scannedHtml w1 Hin1).
  unfold deref at 1 2 3. rewrite Hheap. fold (deref w page).
  set (change := decided _ _ _ _ _). clearbody change.
  unfold stateAfter.
  destruct (looseEqWord (Page.state (deref w page)) Page.stateEnum.CHANGED) eqn:E.
  - apply looseEqWord_true in E. rewrite E.
    destruct change; split; try (by left); split; by (left || intros _).
  - apply looseEqWord_false in E.
    destruct change; split; try (by left); try (by right); split;
      try done; try (by right); intros [H | H]; done.
Qed.

Lemma successful_scan_state_witness :
  Page.state
    (deref (exec (_updatePageState Fuzzy.isMajorChange 0
                    "<p>old</p>" "<p>old</p>") failWorld) 0)
  = JsString Page.stateEnum.CHANGED.
Proof.
  apply (successful_scan_state Fuzzy.isMajorChange 0 "<p>old</p>" "<p>old</p>"
           failWorld).
  - cbn. lia.
  - left. reflexivity.
Defined.

Lemma no_change_same_text isMajorChange html1 html2 threshold :
  answer isMajorChange (_getChangeType html1 html2 threshold) = NO_CHANGE →
  html1 = html2.
Proof.
  unfold _getChangeType.
  destruct (String.eqb_spec html1 "") as [_ | _]; [done |].
  destruct (String.eqb_spec html1 html2) as [-> | _]; [done |].
  cbn [answer]. by destruct (isMajorChange html1 html2 threshold).
Qed.

(** X14: after [_updatePageState], called as [_processHtml] calls it with
    the stored NEW snapshot as the previous text, the NEW snapshot is the
    text just scanned, whatever the change type; so a scan that reads the
    same text again finds no change (or, for an empty text, new content
    again), with any comparator and threshold. *)
Theorem new_snapshot_is_last_fetch
    (isMajorChange : string → string → JsValue → bool)
    (page : ref) (scannedHtml : string) (w : World) :
  (page < length (heap w))%nat →
  snapshot (exec (_updatePageState isMajorChange page (snapshot w page NEW)
                    scannedHtml) w) page NEW = scannedHtml ∧
  (∀ (again : string → string → JsValue → bool) (threshold : JsValue),
     answer again
       (_getChangeType
          (snapshot (exec (_updatePageState isMajorChange page
                             (snapshot w page NEW) scannedHtml) w) page NEW)
          scannedHtml threshold)
     = if String.eqb scannedHtml "" then NEW_CONTENT else NO_CHANGE).
Proof.
  intros Hin.
  assert (Hnew : snapshot (exec (_updatePageState isMajorChange page
                                   (snapshot w page NEW) scannedHtml) w) page NEW
                 = scannedHtml).
  { destruct (updatePageState_decided isMajorChange page (snapshot w page NEW)
                scannedHtml w)
      as (w1 & -> & Hheap & Hhtml & _).
    assert (Hin1 : (page < length (heap w1))%nat) by (by rewrite Hheap).
    assert (Hd : deref w1 page = deref w page) by (unfold deref; by rewrite Hheap).
    destruct (applyChange_snapshots
                (decided isMajorChange page (snapshot w page NEW) scannedHtml w)
                page (snapshot w page NEW) scannedHtml w1 Hin1) as [data Hs].
    destruct (applyChange_fields
                (decided isMajorChange page (snapshot w page NEW) scannedHtml w)
                page (snapshot w page NEW) scannedHtml w1 Hin1) as (Hid & _).
    unfold snapshot at 1. rewrite Hid, Hd. unfold PageStore.loadHtml.
    rewrite Hd, Hhtml in Hs.
    destruct (decided isMajorChange page (snapshot w page NEW) scannedHtml w)
      eqn:Hchange;
      [| | destruct (looseEqWord _ _) |]; destruct Hs as [-> _];
      rewrite ?lookup_insert_eq; try done.
    by apply no_change_same_text in Hchange. }
  split; [exact Hnew |].
  intros again threshold. rewrite Hnew. unfold _getChangeType.
  destruct (String.eqb scannedHtml ""); [done |].
  by rewrite String.eqb_refl.
Qed.

Lemma new_snapshot_is_last_fetch_witness :
  snapshot (exec (_updatePageState Fuzzy.isMajorChange 0
                    (snapshot countWorld 0 NEW) "Count: 9") countWorld) 0 NEW
  = "Count: 9".
Proof.
  apply (new_snapshot_is_last_fetch Fuzzy.isMajorChange 0 "Count: 9" countWorld).
  cbn. lia.
Defined.

(** X15: unless the change is major and the page not yet CHANGED,
    [_updatePageState] leaves the OLD slot alone: a first scan and a minor
    change write the scanned text to the NEW slot and nothing else, no
    change writes nothing, and a major change on a page already CHANGED
    writes the NEW slot only. *)
Theorem old_snapshot_kept
    (isMajorChange : string → string → JsValue → bool)
    (page : ref) (prevHtml scannedHtml : string) (w : World) :
  (page < length (heap w))%nat →
  (decided isMajorChange page prevHtml scannedHtml w ≠ MAJOR_CHANGE ∨
   Page.state (deref w page) = JsString Page.stateEnum.CHANGED) →
  html (exec (_updatePageState isMajorChange page prevHtml scannedHtml) w)
    !! (Page.id (deref w page), OLD)
  = html w !! (Page.id (deref w page), OLD) ∧
  htmlWrites (log (exec (_updatePageState isMajorChange page prevHtml
                           scannedHtml) w))
  = (htmlWrites (log w)
     ++ match decided isMajorChange page prevHtml scannedHtml w with
        | NO_CHANGE => []
        | _ => [(Page.id (deref w page), NEW, scannedHtml)]
        end)%list.
Proof.
  intros Hin Hcase.
  destruct (updatePageState_decided isMajorChange page prevHtml scannedHtml w)
    as (w1 & -> & Hheap & Hhtml & _ & _ & Hlog).
  assert (Hin1 : (page < length (heap w1))%nat) by (by rewrite Hheap).
  assert (Hd : deref w1 page = deref w page) by (unfold deref; by rewrite Hheap).
  destruct (applyChange_snapshots
              (decided isMajorChange page prevHtml scannedHtml w)
              page prevHtml scannedHtml w1 Hin1) as [data Hs].
  rewrite Hd, Hhtml in Hs.
  assert (Hold : ∀ text,
            <[(Page.id (deref w page), NEW) := text]> (html w)
              !! (Page.id (deref w page), OLD)
            = html w !! (Page.id (deref w page), OLD))
    by (intros text; by rewrite lookup_insert_ne by (intros [=])).
  destruct (decided isMajorChange page prevHtml scannedHtml w) eqn:Hchange.
  - destruct Hs as [-> ->]. by rewrite Hold, htmlWrites_app, Hlog.
  - destruct Hs as [-> ->]. rewrite htmlWrites_app, Hlog. cbn.
    by rewrite app_nil_r.
  - destruct Hcase as [Hcase | Hcase]; [done |].
    apply looseEqWord_true in Hcase. rewrite Hcase in Hs.
    destruct Hs as [-> ->]. by rewrite Hold, htmlWrites_app, Hlog.
  - destruct Hs as [-> ->]. by rewrite Hold, htmlWrites_app, Hlog.
Qed.

Lemma old_snapshot_kept_witness :
  html (exec (_updatePageState Fuzzy.isMajorChange 0 "<p>old</p>" "<p>new</p>")
          failWorld) !! (Page.id (deref failWorld 0), OLD)
  = html failWorld !! (Page.id (deref failWorld 0), OLD).
Proof.
  apply (old_snapshot_kept Fuzzy.isMajorChange 0 "<p>old</p>" "<p>new</p>"
           failWorld).
  - cbn. lia.
  - right. reflexivity.
Defined.



(** X17: [_updatePageState] writes only what belongs to its page: every
    snapshot slot of another id, every record under another key and the
    operations in flight are as before. *)
Theorem successful_scan_frame
    (isMajorChange : string → string → JsValue → bool)
    (page : ref) (prevHtml scannedHtml : string) (w : World) :
  (page < length (heap w))%nat →
  (∀ id ty, id ≠ Page.id (deref w page) →
     html (exec (_updatePageState isMajorChange page prevHtml scannedHtml) w)
       !! (id, ty) = html w !! (id, ty)) ∧
  (∀ key, key ≠ Page._KEY (Page.id (deref w page)) →
     storage (exec (_updatePageState isMajorChange page prevHtml scannedHtml) w)
       !! key = storage w !! key) ∧
  pending (exec (_updatePageState isMajorChange page prevHtml scannedHtml) w)
    = pending w.
Proof.
  intros Hin.
  destruct (updatePageState_decided isMajorChange page prevHtml scannedHtml w)
    as (w1 & -> & Hheap & Hhtml & Hstorage & Hpending & _).
  assert (Hin1 : (page < length (heap w1))%nat) by (by rewrite Hheap).
  assert (Hd : deref w1 page = deref w page) by (unfold deref; by rewrite Hheap).
  set (change := decided _ _ _ _ _). clearbody change.
  destruct (applyChange_snapshots change page prevHtml scannedHtml w1 Hin1)
    as [data Hs].
  pose proof (applyChange_storage change page prevHtml scannedHtml w1 Hin1) as Hst.
  rewrite Hd, ?Hhtml, ?Hstorage in Hs, Hst.
  split; [| split].
  - intros id ty Hne.
    destruct change; [| | destruct (looseEqWord _ _) |];
      destruct Hs as [-> _]; rewrite ?lookup_insert_ne; congruence.
  - intros key Hne. rewrite Hst. rewrite lookup_insert_ne; congruence.
  - by rewrite applyChange_pending.
Qed.

Lemma successful_scan_frame_witness :
  pending (exec (_updatePageState Fuzzy.isMajorChange 0 "Count: 5" "Count: 9")
             countWorld) = pending countWorld.
Proof.
  apply (successful_scan_frame Fuzzy.isMajorChange 0 "Count: 5" "Count: 9"
           countWorld).
  cbn. lia.
Defined.

Lemma deliver_only isMajorChange net op heap0 html0 storage0 log0 :
  deliver isMajorChange net 0 (mkWorld heap0 html0 storage0 [op] log0)
  = Some (exec (resume isMajorChange net op)
            (mkWorld heap0 html0 storage0 [] log0)).
Proof. exact (deliver_last isMajorChange net op heap0 html0 storage0 [] log0). Qed.

Lemma suspend_exec op w :
  exec (suspend op) w
  = mkWorld (heap w) (html w) (storage w) (pending w ++ [op]) (log w).
Proof. reflexivity. Qed.

(** A turn on a world with one operation in flight. *)
Lemma run_only isMajorChange net op heap0 html0 storage0 log0 schedule :
  run isMajorChange net (0%nat :: schedule)
    (mkWorld heap0 html0 storage0 [op] log0)
  = run isMajorChange net schedule
      (exec (resume isMajorChange net op) (mkWorld heap0 html0 storage0 [] log0)).
Proof.
  cbn [run]. by rewrite deliver_only.
Qed.

(** X18: the scan of one page whose fetch fails, by a transport error or
    by a response that is not ok, from a world with nothing in flight: one
    turn later nothing is in flight and the promise of [scan] has fulfilled;
    the page has [error] set and the reason as [errorMessage]; its state,
    every other Page object, the snapshot store and the object store are as
    before, and the only events are the fetch, the console line and the
    fulfilment. *)
Theorem scan_of_one_page_that_fails
    (isMajorChange : string → string → JsValue → bool)
    (net : JsValue → FetchResult) (page : ref) (w : World) (reason : JsValue) :
  pending w = [] →
  (page < length (heap w))%nat →
  (net (Page.url (deref w page)) = NetworkError reason ∨
   ∃ status statusText text,
     net (Page.url (deref w page)) = Response false status statusText text ∧
     reason = checkStatus_reason status statusText) →
  pending (run isMajorChange net (fifo 1) (exec (scan [page]) w)) = [] ∧
  Page.error (deref (run isMajorChange net (fifo 1) (exec (scan [page]) w)) page)
    = JsBool true ∧
  Page.errorMessage
    (deref (run isMajorChange net (fifo 1) (exec (scan [page]) w)) page)
    = reason ∧
  Page.state (deref (run isMajorChange net (fifo 1) (exec (scan [page]) w)) page)
    = Page.state (deref w page) ∧
  (∀ other, other ≠ page →
     heap (run isMajorChange net (fifo 1) (exec (scan [page]) w)) !! other
     = heap w !! other) ∧
  html (run isMajorChange net (fifo 1) (exec (scan [page]) w)) = html w ∧
  storage (run isMajorChange net (fifo 1) (exec (scan [page]) w)) = storage w ∧
  log (run isMajorChange net (fifo 1) (exec (scan [page]) w))
    = (log w ++ [EFetch page (Page.url (deref w page));
                 EConsoleLog ("Could not scan " ++ dquote
                              ++ toStr (Page.title (deref w page))
                              ++ dquote ++ ": " ++ toStr reason);
                 EFulfilled])%list.
Proof.
  intros Hp Hin Hfail. unfold scan. rewrite chain_exec, Hp. cbn [app].
  cbn [fifo replicate]. rewrite run_only. cbn [run].
  set (w0 := mkWorld _ _ _ [] _).
  assert (Hin0 : (page < length (heap w0))%nat) by done.
  destruct (fetch_failure isMajorChange net page (Page.url (deref w page)) []
              w0 reason Hin0 Hfail)
    as (Herr & Hmsg & Hstate & Hother & Hhtml & _ & Hstorage & _ & Hpending).
  repeat split; try done.
  assert (Hw' : exec (resume isMajorChange net
                        (PFetch page (Page.url (deref w page)) [])) w0
                = exec (chain []) (exec (_scanPage_catch page reason) w0)).
  { cbn [resume].
    destruct Hfail as [-> | (status & statusText & text & -> & ->)];
      by rewrite exec_then. }
  rewrite Hw', chain_exec, scanPage_catch_exec. subst w0. world_fields.
  by rewrite <- !app_assoc.
Qed.

Lemma scan_of_one_page_that_fails_witness :
  Page.error
    (deref (run Fuzzy.isMajorChange siteNet (fifo 1)
              (exec (scan [0%nat]) failWorld)) 0)
  = JsBool true.
Proof.
  apply (scan_of_one_page_that_fails Fuzzy.isMajorChange siteNet 0 failWorld
           (checkStatus_reason 404 "Not Found")).
  - reflexivity.
  - cbn. lia.
  - right. exists 404, "Not Found", "<h1>404</h1>". split; reflexivity.
Defined.

(** X19: the scan of one page whose fetch answers ok, from a world with
    nothing in flight: three turns later (the response, its text, the
    stored snapshot) the world is the one [_updatePageState] makes from the
    stored NEW snapshot and the fetched text, after the events of the fetch,
    the load and the fulfilment of the promise of [scan]. *)
Theorem scan_of_one_page_that_answers
    (isMajorChange : string → string → JsValue → bool)
    (net : JsValue → FetchResult) (page : ref) (w : World)
    (status : Z) (statusText text : string) :
  pending w = [] →
  net (Page.url (deref w page)) = Response true status statusText text →
  run isMajorChange net (fifo 3) (exec (scan [page]) w)
  = exec (_updatePageState isMajorChange page (snapshot w page NEW) text)
      (mkWorld (heap w) (html w) (storage w) []
         (log w ++ [EFetch page (Page.url (deref w page));
                    ELoadHtml (Page.id (deref w page)) NEW;
                    EFulfilled])).
Proof.
  intros Hp Hnet. unfold scan. rewrite chain_exec, Hp. cbn [app].
  cbn [fifo replicate].
  rewrite run_only. cbn [resume]. rewrite Hnet.
  rewrite suspend_exec. world_fields. cbn [app].
  rewrite run_only. cbn [resume].
  rewrite exec_then, processHtml_exec, chain_exec. world_fields. cbn [app].
  rewrite run_only. cbn [resume run].
  rewrite <- !app_assoc. reflexivity.
Qed.

Lemma scan_of_one_page_that_answers_witness :
  run Fuzzy.isMajorChange countNet (fifo 3) (exec (scan [0%nat]) countWorld)
  = exec (_updatePageState Fuzzy.isMajorChange 0 (snapshot countWorld 0 NEW)
            "Count: 9")
      (mkWorld (heap countWorld) (html countWorld) (storage countWorld) []
         (log countWorld ++ [EFetch 0 (Page.url (deref countWorld 0));
                             ELoadHtml (Page.id (deref countWorld 0)) NEW;
                             EFulfilled])).
Proof.
  apply (scan_of_one_page_that_answers Fuzzy.isMajorChange countNet 0 countWorld
           200 "OK" "Count: 9"); reflexivity.
Defined.
